(** * go-url-shortener: the storage layer

    A shallow embedding of the three [storage] packages of
    inirafli/go-url-shortener (in-memory map, append-only TSV file, PostgreSQL
    table) and the properties of their [Save] / [Load] / [NewStorage]
    operations.

    Conventions.
    - A Go [string] is a byte sequence: Rocq's [string] (a list of [ascii]).
    - A Go [map[string]string] is a [gmap string string].
    - A Go [(T, error)] result is a [result T]: [Ok v] for [(v, nil)] and
      [Err e] for [(zero, e)].
    - [*rand.Rand] is an oracle: a stream of raw draws and a cursor. *)

From Stdlib Require Import ZArith String Ascii List Lia Bool.
From stdpp Require Import gmap strings list fin_maps.

Local Open Scope string_scope.
Local Open Scope Z_scope.

(** ** Results *)

Inductive result (E A : Type) : Type :=
| Ok (v : A)
| Err (e : E).
Arguments Ok {E A} v.
Arguments Err {E A} e.

(** ** The random source and the identifier generator

    [generateShortID] is the same function, character for character, in the
    three packages; it is embedded once. *)

Module ShortID.

(** const shortIDLength = 6 *)
Definition shortIDLength : nat := 6.

(** const charset = "abc...XYZ0123456789" *)
Definition charset : string :=
  "abcdefghijklmnopqrstuvwxyzABCDEFGHIJKLMNOPQRSTUVWXYZ0123456789".

(** [*rand.Rand]: the sequence of raw draws that the seed determines, and
    how many of them have been consumed. *)
Record Rand : Type := mkRand { src : nat -> Z; pos : nat }.

(** rand.New(rand.NewSource(seed)) *)
Definition newRand (draws : nat -> Z) : Rand := mkRand draws 0.

(** r.Intn(n): a value in [0, n) for n > 0; one draw is consumed. *)
Definition Intn (n : Z) (r : Rand) : Z * Rand :=
  (src r (pos r) mod n, mkRand (src r) (S (pos r))).

(** charset[k]; the index is in range at every call site
    (see [Intn_charset_range]), the default byte is never produced. *)
Definition charset_at (k : Z) : ascii :=
  match String.get (Z.to_nat k) charset with
  | Some c => c
  | None => Ascii.zero
  end.

(** for i := range b { b[i] = charset[s.r.Intn(len(charset))] } *)
Fixpoint fill (n : nat) (r : Rand) : string * Rand :=
  match n with
  | O => (EmptyString, r)
  | S n' =>
      let (k, r1) := Intn (Z.of_nat (String.length charset)) r in
      let (rest, r2) := fill n' r1 in
      (String (charset_at k) rest, r2)
  end.

Definition generateShortID (r : Rand) : string * Rand := fill shortIDLength r.

(** The source after [n] more draws. *)
Definition skip (n : nat) (r : Rand) : Rand := mkRand (src r) (pos r + n).

(** The identifiers that [n] successive calls of [generateShortID]
    return: the candidates of a retry loop that collides every time. *)
Fixpoint candidates (n : nat) (r : Rand) : list string :=
  match n with
  | O => []
  | S n' => let (shortID, r') := generateShortID r in shortID :: candidates n' r'
  end.

End ShortID.

(** ** Memory backend (internal/storage/storage.go, first package) *)

Module Memory.
Import ShortID.

Inductive error : Type :=
| ErrExhausted                 (* "failed to generate a unique short ID after multiple attempts" *)
| ErrNotFound (shortID : string). (* "short ID not found: %s" *)

(** type Storage struct { mu; urls; r } -- the lock has no sequential
    content; it is modelled in [MemoryConc]. *)
Record Storage : Type := mkStorage {
  urls : gmap string string;
  r : Rand
}.

(** func NewStorage() *Storage *)
Definition NewStorage (draws : nat -> Z) : Storage :=
  mkStorage ∅ (newRand draws).

(** for i := 0; i < 5; i++ { ... } with [n] iterations left. *)
Fixpoint Save_loop (n : nat) (longURL : string) (s : Storage)
  : result error string * Storage :=
  match n with
  | O => (Err ErrExhausted, s)
  | S n' =>
      let (shortID, r') := generateShortID (r s) in
      match urls s !! shortID with
      | None => (Ok shortID, mkStorage (<[shortID := longURL]> (urls s)) r')
      | Some _ => Save_loop n' longURL (mkStorage (urls s) r')
      end
  end.

(** func (s *Storage) Save(longURL string) (string, error) *)
Definition Save (longURL : string) (s : Storage) : result error string * Storage :=
  Save_loop 5 longURL s.

(** func (s *Storage) Load(shortID string) (string, error) *)
Definition Load (shortID : string) (s : Storage) : result error string * Storage :=
  match urls s !! shortID with
  | Some longUrl => (Ok longUrl, s)
  | None => (Err (ErrNotFound shortID), s)
  end.

(** A caller issuing Save after Save on one store. *)
Fixpoint Save_all (targets : list string) (s : Storage)
  : list (string * result error string) * Storage :=
  match targets with
  | [] => ([], s)
  | t :: ts =>
      let (res, s1) := Save t s in
      let (rest, s2) := Save_all ts s1 in
      ((t, res) :: rest, s2)
  end.

End Memory.

(** ** FileLog backend (the package that persists to a TSV file) *)

Module FileLog.
Import ShortID.

Definition tab : ascii := "009"%char.
Definition newline : ascii := "010"%char.
Definition cr : ascii := "013"%char.

(** What an operating-system call or the scanner reports. *)
Inductive cause : Type :=
| OsError (msg : string)
| ErrTooLong.                  (* bufio.ErrTooLong *)

Inductive error : Type :=
| ErrExhausted                    (* "failed to generate a unique short ID after multiple attempts" *)
| ErrNotFound (shortID : string)  (* "short ID not found: %s" *)
| ErrOpenStorage (c : cause)      (* "failed to open storage file: %w" *)
| ErrReadStorage (c : cause)      (* "error reading storage file: %w" *)
| ErrOpenAppend (c : cause)       (* "failed to open storage file for appending: %w" *)
| ErrWriteRecord (c : cause)      (* "Failed to write record to storage file: %w" *)
| ErrPersist (e : error).         (* "failed to save URL persistently: %w" *)

(** The calls to log.Printf, one constructor per call site. *)
Inductive LogEntry : Type :=
| LogLoadWarning (filePath : string) (e : error)
    (* "Warning: Could not load data from file '%s': %v. Starting with empty storage." *)
| LogLoaded (n : nat) (filePath : string)
    (* "Loaded %d URLs from %s" *)
| LogPersistError (shortID filePath : string) (e : error)
    (* "Error: Failed to persist shortID '%s' to file '%s': %v" *)
| LogSkipMalformed (filePath line : string).
    (* "Warning: Skipping malformed line in %s: %s" *)

Record Storage : Type := mkStorage {
  urls : gmap string string;
  r : Rand;
  filePath : string
}.

(** The environment of one [loadFromFile]: whether os.OpenFile fails, and
    whether a read fails after delivering some bytes of the file. *)
Record load_io : Type := mkLoadIO {
  open_err : option string;
  read_err : option (nat * string)
}.

(** The environment of one [appendToFile]: whether os.OpenFile fails, and
    whether file.WriteString fails after some bytes of the record have
    reached the file.  WriteString reports that count with its error; the
    code discards it. *)
Record append_io : Type := mkAppendIO {
  aopen_err : option string;
  write_err : option (nat * string)
}.

Definition io_ok : load_io := mkLoadIO None None.
Definition append_ok : append_io := mkAppendIO None None.

(** *** bufio.Scanner with the default split function and buffer *)

(** bufio.MaxScanTokenSize *)
Definition maxScanTokenSize : Z := 64 * 1024.

Definition slen (s : string) : Z := Z.of_nat (String.length s).

(** The pieces of the input between newline bytes; the last piece is what
    follows the last newline (empty when the input ends in one). *)
Fixpoint split_newline (s : string) : list string :=
  match s with
  | EmptyString => [EmptyString]
  | String c s' =>
      if Ascii.eqb c newline then EmptyString :: split_newline s'
      else match split_newline s' with
           | l :: ls => String c l :: ls
           | [] => [String c EmptyString]
           end
  end.

(** bufio's dropCR: one trailing carriage return is removed. *)
Fixpoint dropCR (s : string) : string :=
  match s with
  | EmptyString => EmptyString
  | String c s' =>
      match s' with
      | EmptyString => if Ascii.eqb c cr then EmptyString else s
      | String _ _ => String c (dropCR s')
      end
  end.

(** Successive scanner.Scan() / scanner.Text(), and scanner.Err() at the
    end.  A piece that does not fit the buffer stops the scan with
    ErrTooLong; data left after the last newline is a final line unless
    it is empty. *)
Fixpoint scan_pieces (pieces : list string) : list string * option cause :=
  match pieces with
  | [] => ([], None)
  | p :: rest =>
      if maxScanTokenSize <=? slen p then ([], Some ErrTooLong)
      else match rest with
           | [] => (if String.eqb p EmptyString then [] else [dropCR p], None)
           | _ :: _ =>
               let (ls, e) := scan_pieces rest in (dropCR p :: ls, e)
           end
  end.

Definition scan (data : string) : list string * option cause :=
  scan_pieces (split_newline data).

(** *** strings.SplitN(line, "\t", 2) *)

Fixpoint cut_tab (s : string) : option (string * string) :=
  match s with
  | EmptyString => None
  | String c s' =>
      if Ascii.eqb c tab then Some (EmptyString, s')
      else match cut_tab s' with
           | Some (a, b) => Some (String c a, b)
           | None => None
           end
  end.

Definition SplitN_tab_2 (line : string) : list string :=
  match cut_tab line with
  | Some (a, b) => [a; b]
  | None => [line]
  end.

(** *** loadFromFile *)

(** The body of the scan loop: tempUrls, loadedCount and the log. *)
Definition load_line (path : string)
    (st : gmap string string * nat * list LogEntry) (line : string)
  : gmap string string * nat * list LogEntry :=
  let '(tempUrls, loadedCount, log) := st in
  if String.eqb line EmptyString then st
  else match SplitN_tab_2 line with
       | [shortID; longURL] =>
           (<[shortID := longURL]> tempUrls, S loadedCount, log)
       | _ => (tempUrls, loadedCount, (log ++ [LogSkipMalformed path line])%list)
       end.

Definition replay (path : string) (lines : list string)
  : gmap string string * nat * list LogEntry :=
  fold_left (load_line path) lines (∅, O, []).

(** The file at a path; os.O_CREATE makes an absent file an empty one. *)
Definition read_file (fs : gmap string string) (path : string) : string :=
  default EmptyString (fs !! path).

(** func (s *Storage) loadFromFile() error *)
Definition loadFromFile (io : load_io) (s : Storage) (fs : gmap string string)
  : option error * Storage * gmap string string * list LogEntry :=
  match open_err io with
  | Some e => (Some (ErrOpenStorage (OsError e)), s, fs, [])
  | None =>
      let content := read_file fs (filePath s) in
      let fs' := <[filePath s := content]> fs in
      let delivered :=
        match read_err io with
        | Some (k, _) => String.substring 0 k content
        | None => content
        end in
      let (lines, tooLong) := scan delivered in
      let '(tempUrls, _, log) := replay (filePath s) lines in
      match tooLong, read_err io with
      | Some c, _ => (Some (ErrReadStorage c), s, fs', log)
      | None, Some (_, e) => (Some (ErrReadStorage (OsError e)), s, fs', log)
      | None, None => (None, mkStorage tempUrls (r s) (filePath s), fs', log)
      end
  end.

(** func NewStorage(filePath string) returns ( *Storage, error ) *)
Definition NewStorage (draws : nat -> Z) (path : string) (io : load_io)
    (fs : gmap string string)
  : result error Storage * gmap string string * list LogEntry :=
  let s := mkStorage ∅ (newRand draws) path in
  let '(err, s1, fs1, log) := loadFromFile io s fs in
  match err with
  | Some e =>
      (Ok (mkStorage ∅ (r s1) (filePath s1)), fs1,
       (log ++ [LogLoadWarning path e])%list)
  | None => (Ok s1, fs1, (log ++ [LogLoaded (size (urls s1)) path])%list)
  end.

(** func (s *Storage) appendToFile(shortID, longURL string) error *)
Definition record_line (shortID longURL : string) : string :=
  shortID ++ String tab longURL.

Definition appendToFile (io : append_io) (s : Storage) (shortID longURL : string)
    (fs : gmap string string) : option error * gmap string string :=
  match aopen_err io with
  | Some e => (Some (ErrOpenAppend (OsError e)), fs)
  | None =>
      let content := read_file fs (filePath s) in
      let record := record_line shortID longURL ++ String newline EmptyString in
      match write_err io with
      | Some (n, e) =>
          (Some (ErrWriteRecord (OsError e)),
           <[filePath s := content ++ String.substring 0 n record]> fs)
      | None => (None, <[filePath s := content ++ record]> fs)
      end
  end.

(** for range 5 { genID := ...; if !exists { shortID = genID; found; break } } *)
Fixpoint find_unique (n : nat) (m : gmap string string) (rnd : Rand)
  : option string * Rand :=
  match n with
  | O => (None, rnd)
  | S n' =>
      let (genID, rnd') := generateShortID rnd in
      match m !! genID with
      | None => (Some genID, rnd')
      | Some _ => find_unique n' m rnd'
      end
  end.

(** func (s *Storage) Save(longURL string) (string, error) *)
Definition Save (io : append_io) (longURL : string) (s : Storage)
    (fs : gmap string string)
  : result error string * Storage * gmap string string * list LogEntry :=
  let (found, r') := find_unique 5 (urls s) (r s) in
  match found with
  | None => (Err ErrExhausted, mkStorage (urls s) r' (filePath s), fs, [])
  | Some shortID =>
      let s1 := mkStorage (<[shortID := longURL]> (urls s)) r' (filePath s) in
      let (saveErr, fs') := appendToFile io s1 shortID longURL fs in
      match saveErr with
      | Some e =>
          (Err (ErrPersist e),
           mkStorage (delete shortID (urls s1)) r' (filePath s),
           fs', [LogPersistError shortID (filePath s) e])
      | None => (Ok shortID, s1, fs', [])
      end
  end.

(** func (s *Storage) Load(shortID string) (string, error) *)
Definition Load (shortID : string) (s : Storage) : result error string * Storage :=
  match urls s !! shortID with
  | Some longUrl => (Ok longUrl, s)
  | None => (Err (ErrNotFound shortID), s)
  end.

(** A caller issuing Save after Save, each in its own I/O environment. *)
Fixpoint Save_all (reqs : list (string * append_io)) (s : Storage)
    (fs : gmap string string)
  : list (string * result error string) * Storage * gmap string string :=
  match reqs with
  | [] => ([], s, fs)
  | (t, io) :: rest =>
      let '(res, s1, fs1, _) := Save io t s fs in
      let '(out, s2, fs2) := Save_all rest s1 fs1 in
      ((t, res) :: out, s2, fs2)
  end.

(** *** Vocabulary of the properties *)

(** Does byte [c] occur in [s]? *)
Fixpoint has_byte (c : ascii) (s : string) : bool :=
  match s with
  | EmptyString => false
  | String c' s' => Ascii.eqb c' c || has_byte c s'
  end.

(** Is byte [c] the last byte of [s]? *)
Fixpoint ends_with (c : ascii) (s : string) : bool :=
  match s with
  | EmptyString => false
  | String c' s' =>
      match s' with
      | EmptyString => Ascii.eqb c' c
      | String _ _ => ends_with c s'
      end
  end.

(** Every byte of [s] is one of the 62 of the alphabet. *)
Fixpoint over_charset (s : string) : bool :=
  match s with
  | EmptyString => true
  | String c s' => has_byte c charset && over_charset s'
  end.

(** A line the scan loop skips with a warning: not empty, no tab in it. *)
Definition malformed (l : string) : bool :=
  negb (String.eqb l EmptyString) && negb (has_byte tab l).

(** An append whose write, if it fails, fails before any byte of the
    record has reached the file. *)
Definition writes_whole_or_nothing (io : append_io) : Prop :=
  match write_err io with
  | Some (n, _) => n = O
  | None => True
  end.

(** A file that is empty or whose last byte is a newline. *)
Definition terminated (content : string) : Prop :=
  content = EmptyString \/ ends_with newline content = true.

(** The index a reload of the file at [path] builds when no system call
    fails; [None] when the scanner gives up on a line. *)
Definition log_index (path : string) (fs : gmap string string)
  : option (gmap string string) :=
  let (lines, tooLong) := scan (read_file fs path) in
  match tooLong with
  | Some _ => None
  | None => Some (replay path lines).1.1
  end.

(** The in-memory index is what the durable log holds. *)
Definition agrees (s : Storage) (fs : gmap string string) : Prop :=
  log_index (filePath s) fs = Some (urls s).

(** A target whose record reads back as written, under a key of
    [idlen] bytes: no newline in it, no carriage return at its end, and
    the record fits the scanner's buffer. *)
Definition storable_at (idlen : Z) (t : string) : Prop :=
  has_byte newline t = false /\ ends_with cr t = false /\
  idlen + 1 + slen t < maxScanTokenSize.

Definition storable (t : string) : Prop :=
  storable_at (Z.of_nat shortIDLength) t.

End FileLog.

(** ** Relational backend (internal/storage/storage.go, second package) *)

Module Relational.
Import ShortID.

(** const uniqueViolationCode = "23505" *)
Definition uniqueViolationCode : string := "23505".

(** What database/sql hands back. *)
Inductive db_error : Type :=
| PgError (code : string)     (* a *pgconn.PgError and its Code *)
| ErrNoRows                   (* sql.ErrNoRows *)
| DriverError (msg : string). (* anything else: deadline, cancellation, lost connection *)

Inductive error : Type :=
| ErrExhausted                   (* "failed to generate a unique short ID after multiple attempts" *)
| ErrNotFound (shortID : string) (* "short ID not found: %s" *)
| ErrSave (e : db_error)         (* "failed to save URL to database: %w" *)
| ErrLoad (e : db_error).        (* "failed to load URL from database: %w" *)

Inductive LogEntry : Type :=
| LogCollision (shortID : string) (* "Collision detected for short ID '%s', retrying..." *)
| LogSaveError (e : db_error)     (* "Error saving URL to database: %v" *)
| LogLoadError (e : db_error).    (* "Error loading URL from database: %v" *)

(** The database behind [*sql.DB]: the rows of table urls, the failures
    the environment injects (indexed by call number), and the number of
    statements executed so far. *)
Record DB : Type := mkDB {
  rows : gmap string string;
  faults : nat -> option db_error;
  calls : nat
}.

Record Storage : Type := mkStorage { db : DB; r : Rand }.

(** Modelled from the spec: the schema of table urls is not part of the
    sources; the spec gives it as (short_id text primary key or unique,
    long_url text), so an INSERT of a present short_id is refused with
    SQLSTATE 23505.
    s.db.ExecContext(ctx, `INSERT INTO urls (short_id, long_url) VALUES ($1, $2)`, ...) *)
Definition ExecInsert (shortID longURL : string) (d : DB) : option db_error * DB :=
  match faults d (calls d) with
  | Some e => (Some e, mkDB (rows d) (faults d) (S (calls d)))
  | None =>
      match rows d !! shortID with
      | Some _ => (Some (PgError uniqueViolationCode),
                   mkDB (rows d) (faults d) (S (calls d)))
      | None => (None, mkDB (<[shortID := longURL]> (rows d)) (faults d) (S (calls d)))
      end
  end.

(** s.db.QueryRowContext(ctx, `SELECT long_url FROM urls WHERE short_id = $1`, ...)
    followed by row.Scan(&longURL) *)
Definition QueryRow (shortID : string) (d : DB) : result db_error string * DB :=
  match faults d (calls d) with
  | Some e => (Err e, mkDB (rows d) (faults d) (S (calls d)))
  | None =>
      match rows d !! shortID with
      | Some longURL => (Ok longURL, mkDB (rows d) (faults d) (S (calls d)))
      | None => (Err ErrNoRows, mkDB (rows d) (faults d) (S (calls d)))
      end
  end.

(** errors.As(err, &pgErr) && pgErr.Code == uniqueViolationCode *)
Definition is_unique_violation (e : db_error) : bool :=
  match e with
  | PgError code => String.eqb code uniqueViolationCode
  | _ => false
  end.

(** for i := 0; i < 5; i++ { ... } with [n] iterations left. *)
Fixpoint Save_loop (n : nat) (longURL : string) (s : Storage)
  : result error string * Storage * list LogEntry :=
  match n with
  | O => (Err ErrExhausted, s, [])
  | S n' =>
      let (shortID, r') := generateShortID (r s) in
      let (err, db') := ExecInsert shortID longURL (db s) in
      match err with
      | None => (Ok shortID, mkStorage db' r', [])
      | Some e =>
          if is_unique_violation e then
            let '(res, s2, log) := Save_loop n' longURL (mkStorage db' r') in
            (res, s2, LogCollision shortID :: log)
          else (Err (ErrSave e), mkStorage db' r', [LogSaveError e])
      end
  end.

(** func (s *Storage) Save(ctx context.Context, longURL string) (string, error) *)
Definition Save (longURL : string) (s : Storage)
  : result error string * Storage * list LogEntry :=
  Save_loop 5 longURL s.

(** func (s *Storage) Load(ctx context.Context, shortID string) (string, error) *)
Definition Load (shortID : string) (s : Storage)
  : result error string * Storage * list LogEntry :=
  let (res, db') := QueryRow shortID (db s) in
  match res with
  | Ok longURL => (Ok longURL, mkStorage db' (r s), [])
  | Err ErrNoRows => (Err (ErrNotFound shortID), mkStorage db' (r s), [])
  | Err e => (Err (ErrLoad e), mkStorage db' (r s), [LogLoadError e])
  end.

(** *** Vocabulary of the properties *)

(** The store once [k] attempts have collided: the rows are as they were,
    [k] statements have been executed and [k] identifiers drawn. *)
Definition after (k : nat) (s : Storage) : Storage :=
  mkStorage (mkDB (rows (db s)) (faults (db s)) (calls (db s) + k))
            (skip (shortIDLength * k) (r s)).

(** Attempt number [i] (from 0) of a Save whose earlier attempts have
    collided: the candidate it draws and what the database answers. *)
Definition attempt (i : nat) (longURL : string) (s : Storage)
  : string * option db_error :=
  let shortID := fst (generateShortID (r (after i s))) in
  (shortID, fst (ExecInsert shortID longURL (db (after i s)))).

Definition collides (i : nat) (longURL : string) (s : Storage) : Prop :=
  exists e, (attempt i longURL s).2 = Some e /\ is_unique_violation e = true.

End Relational.

(** ** Memory backend under concurrent callers

    Goroutines calling [Save] and [Load] on one [*Storage], interleaved
    statement by statement.  The shared part is the map, the random source
    and the sync.RWMutex: the number of readers holding it, whether a
    writer holds it, and how many writers are waiting (a waiting writer
    keeps new readers out). *)

Module MemoryConc.
Import ShortID.

Record Shared : Type := mkShared {
  urls : gmap string string;
  r : Rand;
  readers : nat;
  writer : bool;
  waiting : nat
}.

(** Where a goroutine stands. *)
Inductive pc : Type :=
| SaveCall (longURL : string)                  (* at s.mu.RLock() *)
| SaveLoop (longURL : string) (i : nat)        (* at i < 5; shortID := s.generateShortID() *)
| SaveCheck (longURL : string) (i : nat) (shortID : string)
                                               (* at _, exists := s.urls[shortID] *)
| SaveStore (longURL : string) (shortID : string)
                                               (* at s.urls[shortID] = longURL *)
| SaveReturn (res : result Memory.error string) (* at return; deferred s.mu.RUnlock() *)
| LoadCall (shortID : string)                  (* at s.mu.Lock(): announce *)
| LoadWait (shortID : string)                  (* at s.mu.Lock(): wait for the readers *)
| LoadLocked (shortID : string)                (* at longUrl, exists := s.urls[shortID] *)
| LoadReturn (res : result Memory.error string) (* at return; deferred s.mu.Unlock() *)
| Done (res : result Memory.error string).

(** One statement of one goroutine; [None] when it is blocked or done. *)
Definition step (sh : Shared) (t : pc) : option (Shared * pc) :=
  match t with
  | SaveCall u =>
      if negb (writer sh) && Nat.eqb (waiting sh) 0
      then Some (mkShared (urls sh) (r sh) (S (readers sh)) (writer sh) (waiting sh),
                 SaveLoop u 0)
      else None
  | SaveLoop u i =>
      if Nat.ltb i 5
      then let (shortID, r') := generateShortID (r sh) in
           Some (mkShared (urls sh) r' (readers sh) (writer sh) (waiting sh),
                 SaveCheck u i shortID)
      else Some (sh, SaveReturn (Err Memory.ErrExhausted))
  | SaveCheck u i shortID =>
      match urls sh !! shortID with
      | None => Some (sh, SaveStore u shortID)
      | Some _ => Some (sh, SaveLoop u (S i))
      end
  | SaveStore u shortID =>
      Some (mkShared (<[shortID := u]> (urls sh)) (r sh) (readers sh) (writer sh) (waiting sh),
            SaveReturn (Ok shortID))
  | SaveReturn res =>
      Some (mkShared (urls sh) (r sh) (Nat.pred (readers sh)) (writer sh) (waiting sh),
            Done res)
  | LoadCall shortID =>
      Some (mkShared (urls sh) (r sh) (readers sh) (writer sh) (S (waiting sh)),
            LoadWait shortID)
  | LoadWait shortID =>
      if negb (writer sh) && Nat.eqb (readers sh) 0
      then Some (mkShared (urls sh) (r sh) (readers sh) true (Nat.pred (waiting sh)),
                 LoadLocked shortID)
      else None
  | LoadLocked shortID =>
      match urls sh !! shortID with
      | Some longUrl => Some (sh, LoadReturn (Ok longUrl))
      | None => Some (sh, LoadReturn (Err (Memory.ErrNotFound shortID)))
      end
  | LoadReturn res =>
      Some (mkShared (urls sh) (r sh) (readers sh) false (waiting sh), Done res)
  | Done _ => None
  end.

(** A schedule names, statement by statement, the goroutine that runs. *)
Fixpoint run (sched : list nat) (sh : Shared) (ts : list pc)
  : option (Shared * list pc) :=
  match sched with
  | [] => Some (sh, ts)
  | i :: rest =>
      match ts !! i with
      | None => None
      | Some t =>
          match step sh t with
          | None => None
          | Some (sh', t') => run rest sh' (<[i := t']> ts)
          end
      end
  end.

(** The store NewStorage builds, nobody holding the lock. *)
Definition fresh (draws : nat -> Z) : Shared :=
  mkShared ∅ (newRand draws) 0 false 0.

End MemoryConc.

(** ** Sample inputs *)

(** A random source whose draws repeat with period six: every identifier it
    yields is "abcdef". *)
Definition cyclic6 (n : nat) : Z := Z.of_nat (n mod 6).

(** A random source that counts: the identifiers are "abcdef", "ghijkl", ... *)
Definition counting (n : nat) : Z := Z.of_nat n.

(** An append whose write fails before any byte is written, one whose
    write fails after 18 bytes, and a load whose open fails. *)
Definition disk_full : FileLog.append_io :=
  FileLog.mkAppendIO None (Some (O, "no space left on device")).

Definition torn_write : FileLog.append_io :=
  FileLog.mkAppendIO None (Some (18%nat, "no space left on device")).

Definition no_permission : FileLog.load_io :=
  FileLog.mkLoadIO (Some "permission denied") None.

(** A FileLog store and a Memory store in which "abcdef" is taken. *)
Definition taken_filelog : FileLog.Storage :=
  FileLog.mkStorage {["abcdef" := "https://go.dev"]} (ShortID.newRand cyclic6) "urls.tsv".

Definition taken_memory : Memory.Storage :=
  Memory.mkStorage {["abcdef" := "https://go.dev"]} (ShortID.newRand cyclic6).

(** A database in which every statement meets a lost connection except the
    first, which is refused with a foreign-key violation (SQLSTATE 23503);
    one whose first two statements report a unique violation; one that
    reports a unique violation every time. *)
Definition fk_then_down (n : nat) : option Relational.db_error :=
  match n with
  | O => Some (Relational.PgError "23503")
  | S _ => Some (Relational.DriverError "connection reset")
  end.

Definition two_collisions (n : nat) : option Relational.db_error :=
  match n with
  | O | S O => Some (Relational.PgError "23505")
  | _ => None
  end.

Definition always_collides (n : nat) : option Relational.db_error :=
  Some (Relational.PgError "23505").

Definition relational_store (f : nat -> option Relational.db_error) : Relational.Storage :=
  Relational.mkStorage (Relational.mkDB ∅ f 0) (ShortID.newRand counting).

(** Two goroutines that call Save on one Memory store; a schedule that
    alternates between them statement by statement, and one that lets the
    first finish before the second starts. *)
Definition two_savers : list MemoryConc.pc :=
  [MemoryConc.SaveCall "https://go.dev/a"; MemoryConc.SaveCall "https://go.dev/b"].

Definition race_schedule : list nat := [0; 1; 0; 1; 0; 1; 0; 1; 0; 1]%nat.

Definition serial_schedule : list nat := [0; 0; 0; 0; 0; 1; 1; 1; 1; 1]%nat.

(** An empty FileLog store. *)
Definition empty_filelog : FileLog.Storage :=
  FileLog.mkStorage ∅ (ShortID.newRand cyclic6) "urls.tsv".

(** The store NewStorage builds when there is no file yet, and the file
    system it leaves. *)
Definition first_run : FileLog.Storage :=
  FileLog.mkStorage ∅ (ShortID.newRand counting) "urls.tsv".

Definition first_run_fs : gmap string string := {["urls.tsv" := EmptyString]}.

(** A target of two lines, and one that ends in a carriage return. *)
Definition two_line_target : string :=
  "https://go.dev/a" ++ String FileLog.newline "b".

Definition cr_target : string := "https://go.dev" ++ String FileLog.cr EmptyString.

(** A target with a tab inside. *)
Definition tab_target : string := "https://go.dev/?q=a" ++ String FileLog.tab "b".

(** A file of one line with three tab-separated fields after an empty line. *)
Definition three_field_file : string :=
  String FileLog.newline
    ("abcdef" ++ String FileLog.tab
       ("https://go.dev" ++ String FileLog.tab ("extra" ++ String FileLog.newline EmptyString))).

(** Three requests: two appends that succeed around one that fails. *)
Definition three_requests : list (string * FileLog.append_io) :=
  [("https://go.dev", FileLog.append_ok);
   ("https://go.dev/doc", disk_full);
   ("https://go.dev/blog", FileLog.append_ok)].

(** ** Vocabulary for the identifier generator *)

Module ShortIDSpec.
Import ShortID.

(** The position of the first byte [c] in [s]; the length of [s] when [c]
    does not occur. *)
Fixpoint index_of (c : ascii) (s : string) : nat :=
  match s with
  | EmptyString => O
  | String c' s' => if Ascii.eqb c' c then O else S (index_of c s')
  end.

(** A stream of draws that spells the word [w]: draw number [n] is the
    position in the alphabet of byte [n] of [w]. *)
Definition draws_for (w : string) (n : nat) : Z :=
  match String.get n w with
  | Some c => Z.of_nat (index_of c charset)
  | None => 0
  end.

End ShortIDSpec.

(** ** Vocabulary for the FileLog backend *)

Module FileLogSpec.
Import FileLog.

(** The bytes a run of Saves adds to the file: one record per Save that
    returned an identifier, in the order of the calls. *)
Fixpoint written (out : list (string * result error string)) : string :=
  match out with
  | [] => EmptyString
  | (t, Ok id) :: rest =>
      record_line id t ++ String newline EmptyString ++ written rest
  | (_, Err _) :: rest => written rest
  end.

(** Does some line of the file fill the scanner's buffer? *)
Definition has_long_line (content : string) : bool :=
  existsb (fun p => maxScanTokenSize <=? slen p) (split_newline content).

End FileLogSpec.

(** A file with a good record followed by a line of 65536 bytes. *)
Definition long_line_file : string :=
  FileLog.record_line "abcdef" "https://go.dev" ++ String FileLog.newline
    (string_of_list_ascii (repeat "a"%char (Z.to_nat 65536))
       ++ String FileLog.newline EmptyString).

(** ** Vocabulary for the concurrent Memory backend *)

Module MemoryConcSpec.
Import MemoryConc.

(** The goroutine is between s.mu.RLock() and the deferred s.mu.RUnlock(). *)
Definition in_save (t : pc) : bool :=
  match t with
  | SaveLoop _ _ | SaveCheck _ _ _ | SaveStore _ _ | SaveReturn _ => true
  | _ => false
  end.

(** The goroutine is between s.mu.Lock() and the deferred s.mu.Unlock(). *)
Definition in_load (t : pc) : bool :=
  match t with
  | LoadLocked _ | LoadReturn _ => true
  | _ => false
  end.

(** The goroutine has announced itself at s.mu.Lock() and waits. *)
Definition at_wait (t : pc) : bool :=
  match t with
  | LoadWait _ => true
  | _ => false
  end.

(** The goroutine has not started its call yet. *)
Definition at_call (t : pc) : bool :=
  match t with
  | SaveCall _ | LoadCall _ => true
  | _ => false
  end.

Definition is_done (t : pc) : bool :=
  match t with
  | Done _ => true
  | _ => false
  end.

Definition count (f : pc -> bool) (ts : list pc) : nat :=
  length (List.filter f ts).

(** The mutex state accounts for the goroutines: as many readers as
    goroutines inside Save, a writer exactly when one goroutine is inside
    Load, as many waiting writers as goroutines waiting, and no reader
    while a writer holds the lock. *)
Definition lock_ok (sh : Shared) (ts : list pc) : Prop :=
  readers sh = count in_save ts /\
  Nat.b2n (writer sh) = count in_load ts /\
  waiting sh = count at_wait ts /\
  (writer sh = true -> readers sh = O).

End MemoryConcSpec.

(** Two Saves around a Load, and a schedule that runs them to the end: the
    Load announces itself while the first Save holds the read lock, waits
    for it, and the second Save starts after the Load has returned. *)
Definition save_load_save : list MemoryConc.pc :=
  [MemoryConc.SaveCall "https://go.dev/a"; MemoryConc.LoadCall "abcdef";
   MemoryConc.SaveCall "https://go.dev/b"].

Definition save_load_save_schedule : list nat :=
  [0; 1; 0; 0; 0; 0; 1; 1; 1; 2; 2; 2; 2; 2]%nat.

(** ** The HTTP handlers (internal/handler/handler.go) over the Memory store

    A request is what the handlers read of an *http.Request: the method,
    the Host header, the URL path, and what json.Decoder.Decode makes of
    the body (with the 4 KiB limit and DisallowUnknownFields in force):
    the LongURL field of the decoded ShortenRequest, or the decoder's
    error.  A response is the call that writes it.  url.ParseRequestURI is
    a parameter of the handlers. *)

Module Handler.
Import ShortID.

(** The error of decoder.Decode(&req), by the first case of the switch in
    ShortenURL that it meets. *)
Inductive decode_error : Type :=
| SyntaxError (offset : Z)                         (* errors.As(err, &syntaxError) *)
| UnexpectedEOF                                    (* errors.Is(err, io.ErrUnexpectedEOF) *)
| UnmarshalTypeError (field : string) (offset : Z) (* errors.As(err, &unmarshalTypeError) *)
| UnknownField (name : string)                     (* err.Error() is "json: unknown field " followed by name *)
| EOF                                              (* errors.Is(err, io.EOF) *)
| MaxBytesError                                    (* errors.As(err, &maxBytesError) *)
| OtherDecodeError (msg : string).                 (* the default case *)

Record request : Type := mkRequest {
  method : string;
  host : string;
  path : string;
  body : result decode_error string
}.

(** The texts handed to writeError. *)
Inductive message : Type :=
| MsgInvalidMethod       (* "Invalid request method" *)
| MsgBadJSONAt (offset : Z)
                         (* "Request body contains badly-formed JSON (at character %d)" *)
| MsgBadJSON             (* "Request body contains badly-formed JSON" *)
| MsgInvalidValue (field : string) (offset : Z)
                         (* "Request body contains an invalid value for the %q field (at character %d)" *)
| MsgUnknownField (name : string)
                         (* "Request body contains unknown field %s" *)
| MsgEmptyBody           (* "Request body must not be empty" *)
| MsgTooLarge (maxBodyBytes : Z)
                         (* "Request body must not be larger than %d bytes" *)
| MsgDecodeFailed        (* "Could not decode request body" *)
| MsgMissingLongURL      (* "Missing 'long_url' in request body" *)
| MsgInvalidLongURL      (* "Invalid 'long_url' format. Must be a valid HTTP/HTTPS URL." *)
| MsgShortenFailed       (* "Failed to shorten URL" *)
| MsgMissingShortID      (* "Missing short ID in URL path" *)
| MsgNotFound            (* "Short URL not found" *)
| MsgRetrieveFailed.     (* "Failed to retrieve URL" *)

Inductive response : Type :=
| WriteError (status : Z) (msg : message)
    (* writeError(w, status, message) *)
| Created (short_url : string)
    (* WriteHeader(http.StatusCreated); Encode(ShortenResponse{ShortURL: ...}) *)
| Redirect (url : string) (code : Z).
    (* http.Redirect(w, r, url, code) *)

Inductive LogEntry : Type :=
| LogDecodeError (e : decode_error)              (* "Error decoding JSON: %v" *)
| LogSaveError (e : Memory.error)                (* "Error saving URL to storage: %v" *)
| LogLoadError (shortID : string) (e : Memory.error).
                                                 (* "Error loading URL for shortID '%s': %v" *)

(** net/http status codes *)
Definition StatusCreated : Z := 201.
Definition StatusFound : Z := 302.
Definition StatusBadRequest : Z := 400.
Definition StatusNotFound : Z := 404.
Definition StatusMethodNotAllowed : Z := 405.
Definition StatusRequestEntityTooLarge : Z := 413.
Definition StatusInternalServerError : Z := 500.

(** err.Error() of the errors the Memory store returns. *)
Definition error_string (e : Memory.error) : string :=
  match e with
  | Memory.ErrExhausted =>
      "failed to generate a unique short ID after multiple attempts"
  | Memory.ErrNotFound shortID => "short ID not found: " ++ shortID
  end.

(** strings.HasPrefix(s, prefix) *)
Fixpoint HasPrefix (s prefix : string) {struct prefix} : bool :=
  match prefix with
  | EmptyString => true
  | String p prefix' =>
      match s with
      | EmptyString => false
      | String c s' => Ascii.eqb c p && HasPrefix s' prefix'
      end
  end.

(** strings.TrimPrefix(s, prefix) *)
Fixpoint CutPrefix (s prefix : string) {struct prefix} : option string :=
  match prefix with
  | EmptyString => Some s
  | String p prefix' =>
      match s with
      | EmptyString => None
      | String c s' => if Ascii.eqb c p then CutPrefix s' prefix' else None
      end
  end.

Definition TrimPrefix (s prefix : string) : string :=
  match CutPrefix s prefix with
  | Some rest => rest
  | None => s
  end.

(** strings.Contains(s, substr) *)
Fixpoint Contains (s substr : string) : bool :=
  HasPrefix s substr ||
  match s with
  | EmptyString => false
  | String _ s' => Contains s' substr
  end.

Section WithParser.

(** What url.ParseRequestURI returns: the Scheme and the Host of the URL,
    or nothing when it returns an error. *)
Variable ParseRequestURI : string -> option (string * string).

(** func isValidURL(urlStr string) bool *)
Definition isValidURL (urlStr : string) : bool :=
  match ParseRequestURI urlStr with
  | None => false
  | Some (scheme, uhost) =>
      (String.eqb scheme "http" || String.eqb scheme "https")
      && negb (String.eqb uhost EmptyString)
  end.

(** func (h *Handler) ShortenURL(w http.ResponseWriter, r *http.Request) *)
Definition ShortenURL (req : request) (s : Memory.Storage)
  : response * Memory.Storage * list LogEntry :=
  if negb (String.eqb (method req) "POST") then
    (WriteError StatusMethodNotAllowed MsgInvalidMethod, s, [])
  else
    match body req with
    | Err e =>
        match e with
        | SyntaxError offset =>
            (WriteError StatusBadRequest (MsgBadJSONAt offset), s, [])
        | UnexpectedEOF => (WriteError StatusBadRequest MsgBadJSON, s, [])
        | UnmarshalTypeError field offset =>
            (WriteError StatusBadRequest (MsgInvalidValue field offset), s, [])
        | UnknownField name =>
            (WriteError StatusBadRequest (MsgUnknownField name), s, [])
        | EOF => (WriteError StatusBadRequest MsgEmptyBody, s, [])
        | MaxBytesError =>
            (WriteError StatusRequestEntityTooLarge (MsgTooLarge (1024 * 4)), s, [])
        | OtherDecodeError _ =>
            (WriteError StatusInternalServerError MsgDecodeFailed, s, [LogDecodeError e])
        end
    | Ok LongURL =>
        if String.eqb LongURL EmptyString then
          (WriteError StatusBadRequest MsgMissingLongURL, s, [])
        else if negb (isValidURL LongURL) then
          (WriteError StatusBadRequest MsgInvalidLongURL, s, [])
        else
          match Memory.Save LongURL s with
          | (Err err, s') =>
              (WriteError StatusInternalServerError MsgShortenFailed, s',
               [LogSaveError err])
          | (Ok shortID, s') =>
              (Created ("http" ++ "://" ++ host req ++ "/" ++ shortID), s', [])
          end
    end.

End WithParser.

(** func (h *Handler) RedirectURL(w http.ResponseWriter, r *http.Request) *)
Definition RedirectURL (req : request) (s : Memory.Storage)
  : response * Memory.Storage * list LogEntry :=
  if negb (String.eqb (method req) "GET") then
    (WriteError StatusMethodNotAllowed MsgInvalidMethod, s, [])
  else
    let shortID := TrimPrefix (path req) "/" in
    if String.eqb shortID EmptyString then
      (WriteError StatusBadRequest MsgMissingShortID, s, [])
    else
      match Memory.Load shortID s with
      | (Err err, s') =>
          if Contains (error_string err) "not found" then
            (WriteError StatusNotFound MsgNotFound, s', [LogLoadError shortID err])
          else
            (WriteError StatusInternalServerError MsgRetrieveFailed, s',
             [LogLoadError shortID err])
      | (Ok longURL, s') => (Redirect longURL StatusFound, s', [])
      end.

End Handler.

(** A parser that accepts "scheme://host" followed by anything, for the
    sample requests: the scheme is what precedes the first colon and the
    host is taken to be present exactly when two slashes follow it. *)
Fixpoint sample_scheme (u : string) : option (string * string) :=
  match u with
  | EmptyString => None
  | String c u' =>
      if Ascii.eqb c ":"%char then Some (EmptyString, u')
      else match sample_scheme u' with
           | Some (sch, rest) => Some (String c sch, rest)
           | None => None
           end
  end.

Definition sample_parser (u : string) : option (string * string) :=
  match sample_scheme u with
  | Some (sch, rest) =>
      Some (sch, if Handler.HasPrefix rest "//" then Handler.TrimPrefix rest "//"
                 else EmptyString)
  | None => None
  end.

Definition post_go_dev : Handler.request :=
  Handler.mkRequest "POST" "sho.rt" "/shorten" (Ok "https://go.dev/doc").

Definition get_abcdef : Handler.request :=
  Handler.mkRequest "GET" "sho.rt" "/abcdef" (Err Handler.EOF).

Definition get_missing : Handler.request :=
  Handler.mkRequest "GET" "sho.rt" "/zzzzzz" (Err Handler.EOF).

(** A file that holds one record, for "abcdef". *)
Definition one_record_fs : gmap string string :=
  {["urls.tsv" := FileLog.record_line "abcdef" "https://go.dev"
                  ++ String FileLog.newline EmptyString]}.

(** * Properties *)

Global Arguments ShortID.generateShortID : simpl never.
Global Arguments ShortID.skip : simpl never.

(** ** The identifier generator *)

Section Generator.
Import ShortID.

Lemma Intn_range (n : Z) (rnd : Rand) :
  0 < n -> 0 <= fst (Intn n rnd) < n.
Proof. intros Hn. unfold Intn. simpl. apply Z.mod_pos_bound. exact Hn. Qed.

Lemma Intn_charset_range (rnd : Rand) :
  (Z.to_nat (fst (Intn (Z.of_nat (String.length charset)) rnd))
     < String.length charset)%nat.
Proof.
  pose proof (Intn_range (Z.of_nat (String.length charset)) rnd) as H.
  assert (0 < Z.of_nat (String.length charset)) as Hpos by (vm_compute; reflexivity).
  specialize (H Hpos). lia.
Qed.

Lemma fill_skip (n : nat) (rnd : Rand) : snd (fill n rnd) = skip n rnd.
Proof.
  revert rnd. induction n as [|n IH]; intros rnd.
  - destruct rnd as [f p]. unfold skip. simpl. f_equal. lia.
  - simpl. specialize (IH (mkRand (src rnd) (S (pos rnd)))).
    destruct (fill n (mkRand (src rnd) (S (pos rnd)))) as [rest r2].
    simpl in *. subst r2. unfold skip. simpl. f_equal. lia.
Qed.

Lemma fill_length (n : nat) (rnd : Rand) : String.length (fst (fill n rnd)) = n.
Proof.
  revert rnd. induction n as [|n IH]; intros rnd; [reflexivity|].
  simpl. specialize (IH (mkRand (src rnd) (S (pos rnd)))).
  destruct (fill n (mkRand (src rnd) (S (pos rnd)))) as [rest r2].
  simpl in *. congruence.
Qed.

Lemma generateShortID_skip (rnd : Rand) :
  snd (generateShortID rnd) = skip shortIDLength rnd.
Proof. apply fill_skip. Qed.

Lemma generateShortID_length (rnd : Rand) :
  String.length (fst (generateShortID rnd)) = shortIDLength.
Proof. apply fill_length. Qed.

Lemma skip_skip (a b : nat) (rnd : Rand) : skip a (skip b rnd) = skip (b + a) rnd.
Proof. unfold skip. simpl. f_equal. lia. Qed.

Lemma candidates_length (n : nat) (rnd : Rand) : length (candidates n rnd) = n.
Proof.
  revert rnd. induction n as [|n IH]; intros rnd; [reflexivity|].
  simpl. destruct (generateShortID rnd) as [id r']. simpl. by rewrite IH.
Qed.

End Generator.

(** ** Memory backend, one caller at a time *)

Section MemoryFacts.
Import ShortID Memory.

(** What the retry loop returns, in terms of the candidates it drew. *)
Lemma memory_Save_loop_inv (n : nat) (T : string) (s : Storage) :
  match Save_loop n T s with
  | (Ok id, s') =>
      urls s !! id = None /\ urls s' = <[id := T]> (urls s) /\
      exists k, (k < n)%nat /\ r s' = skip (shortIDLength * S k) (r s) /\
                candidates n (r s) !! k = Some id /\
                Forall (fun c => is_Some (urls s !! c)) (take k (candidates n (r s)))
  | (Err e, s') =>
      e = ErrExhausted /\ urls s' = urls s /\
      r s' = skip (shortIDLength * n) (r s) /\
      Forall (fun c => is_Some (urls s !! c)) (candidates n (r s))
  end.
Proof.
  revert s. induction n as [|n IH]; intros s.
  - cbn [Save_loop candidates]. split; [reflexivity|]. split; [reflexivity|]. split; [|constructor].
    unfold skip. destruct (r s) as [f p]. simpl. f_equal. lia.
  - cbn [Save_loop candidates]. pose proof (generateShortID_skip (r s)) as Hskip.
    destruct (generateShortID (r s)) as [c r'] eqn:Hgen. simpl in Hskip. subst r'.
    destruct (urls s !! c) as [old|] eqn:Hc.
    + specialize (IH (mkStorage (urls s) (skip shortIDLength (r s)))).
      destruct (Save_loop n T (mkStorage (urls s) (skip shortIDLength (r s))))
        as [[id|e] s']; cbn [urls r] in IH.
      * destruct IH as (Hnone & Hurls & k & Hk & Hr & Hcand & Hall).
        split; [exact Hnone|]. split; [exact Hurls|].
        exists (S k). split; [lia|]. split; [|split].
        -- rewrite Hr, skip_skip. f_equal. unfold shortIDLength. lia.
        -- exact Hcand.
        -- cbn [take]. constructor; [by rewrite Hc | exact Hall].
      * destruct IH as (He & Hurls & Hr & Hall).
        split; [exact He|]. split; [exact Hurls|]. split.
        -- rewrite Hr, skip_skip. f_equal. unfold shortIDLength. lia.
        -- constructor; [by rewrite Hc | exact Hall].
    + cbn [urls r]. split; [exact Hc|]. split; [reflexivity|].
      exists O. split; [lia|]. split; [|split].
      -- reflexivity.
      -- reflexivity.
      -- constructor.
Qed.

Lemma memory_Save_Ok (T : string) (s s' : Storage) (id : string) :
  Save T s = (Ok id, s') ->
  urls s !! id = None /\ urls s' = <[id := T]> (urls s).
Proof.
  intros H. pose proof (memory_Save_loop_inv 5 T s) as Hinv.
  unfold Save in H. rewrite H in Hinv. tauto.
Qed.

Lemma memory_Save_Err (T : string) (s s' : Storage) (e : error) :
  Save T s = (Err e, s') -> e = ErrExhausted /\ urls s' = urls s.
Proof.
  intros H. pose proof (memory_Save_loop_inv 5 T s) as Hinv.
  unfold Save in H. rewrite H in Hinv. tauto.
Qed.

(** Save only ever adds: an entry once present stays as it is. *)
Lemma memory_Save_mono (T : string) (s : Storage) (id t : string) :
  urls s !! id = Some t -> urls (snd (Save T s)) !! id = Some t.
Proof.
  intros Hin. destruct (Save T s) as [[id'|e] s'] eqn:HS; cbn [snd].
  - apply memory_Save_Ok in HS as [Hnone ->].
    rewrite lookup_insert_ne; [exact Hin | congruence].
  - apply memory_Save_Err in HS as [_ ->]. exact Hin.
Qed.

(** After a run of Saves, the keys are the old keys and the returned ids. *)
Lemma memory_Save_all_lookup (targets : list string) (s : Storage) :
  forall out s', Save_all targets s = (out, s') ->
  forall id t, urls s' !! id = Some t <->
               (urls s !! id = Some t \/ In (t, Ok id) out).
Proof.
  revert s. induction targets as [|T ts IH]; intros s out s' H id t.
  - cbn in H. inversion H; subst. cbn. tauto.
  - cbn [Save_all] in H.
    destruct (Save T s) as [res s1] eqn:HS.
    destruct (Save_all ts s1) as [rest s2] eqn:HA.
    inversion H; subst out s'. clear H.
    rewrite (IH s1 rest s2 HA id t). cbn [In].
    destruct res as [id1|e].
    + apply memory_Save_Ok in HS as [Hnone Hurls]. rewrite Hurls.
      destruct (decide (id1 = id)) as [->|Hne].
      * rewrite lookup_insert_eq. split.
        -- intros [Heq|Hin]; [|tauto]. inversion Heq; subst. right. left. reflexivity.
        -- intros [Hold|[Heq|Hin]]; [congruence| |tauto].
           inversion Heq; subst. left. reflexivity.
      * rewrite lookup_insert_ne by exact Hne. split.
        -- tauto.
        -- intros [Hold|[Heq|Hin]]; [tauto| |tauto]. inversion Heq; congruence.
    + apply memory_Save_Err in HS as [_ Hurls]. rewrite Hurls. split.
      * tauto.
      * intros [Hold|[Heq|Hin]]; [tauto| |tauto]. inversion Heq.
Qed.

End MemoryFacts.


(** ** Bytes, lines and the scanner *)

Section Scanner.
Import ShortID FileLog.

Lemma ascii_eqb_eq (a b : ascii) : Ascii.eqb a b = true <-> a = b.
Proof. apply Ascii.eqb_eq. Qed.

Lemma app_String (x : ascii) (a b : string) : String x a ++ b = String x (a ++ b).
Proof. reflexivity. Qed.

Lemma app_Empty (b : string) : EmptyString ++ b = b.
Proof. reflexivity. Qed.

Lemma has_byte_app (c : ascii) (a b : string) :
  has_byte c (a ++ b) = has_byte c a || has_byte c b.
Proof.
  induction a as [|x a IH]; [reflexivity|].
  rewrite app_String. cbn [has_byte]. rewrite IH. by rewrite orb_assoc.
Qed.

Lemma slen_app (a b : string) : slen (a ++ b) = slen a + slen b.
Proof.
  unfold slen. induction a as [|x a IH]; [rewrite app_Empty; cbn [String.length]; lia|].
  rewrite app_String. cbn [String.length]. lia.
Qed.

Lemma slen_nonneg (a : string) : 0 <= slen a.
Proof. unfold slen. lia. Qed.

Lemma slen_String (c : ascii) (a : string) : slen (String c a) = 1 + slen a.
Proof. unfold slen. cbn [String.length]. lia. Qed.

Lemma string_app_assoc (a b c : string) : (a ++ b) ++ c = a ++ (b ++ c).
Proof. induction a as [|x a IH]; [reflexivity|]. rewrite !app_String. by rewrite IH. Qed.

Lemma string_app_nil_r (a : string) : a ++ EmptyString = a.
Proof. induction a as [|x a IH]; [reflexivity|]. rewrite !app_String. by rewrite IH. Qed.

(** *** split_newline *)

Lemma split_newline_nonempty (s : string) : split_newline s <> [].
Proof.
  destruct s as [|c s]; cbn; [discriminate|].
  destruct (Ascii.eqb c newline); [discriminate|].
  destruct (split_newline s); discriminate.
Qed.

Lemma split_newline_app (a b : string) :
  split_newline (a ++ String newline b) = (split_newline a ++ split_newline b)%list.
Proof.
  induction a as [|c a IH]; rewrite ?app_String, ?app_Empty; cbn [split_newline].
  - rewrite Ascii.eqb_refl. reflexivity.
  - destruct (Ascii.eqb c newline); [by rewrite IH|].
    rewrite IH. pose proof (split_newline_nonempty a) as Hne.
    destruct (split_newline a) as [|l ls]; [congruence|]. reflexivity.
Qed.

Lemma split_newline_free (a : string) :
  has_byte newline a = false -> split_newline a = [a].
Proof.
  induction a as [|c a IH]; cbn [has_byte split_newline]; [reflexivity|].
  intros H. apply orb_false_iff in H as [Hc Ha].
  rewrite Hc, (IH Ha). reflexivity.
Qed.

Lemma split_newline_pieces_free (s : string) :
  Forall (fun p => has_byte newline p = false) (split_newline s).
Proof.
  induction s as [|c s IH]; cbn [split_newline].
  - constructor; [reflexivity|constructor].
  - destruct (Ascii.eqb c newline) eqn:Hc.
    + constructor; [reflexivity|exact IH].
    + pose proof (split_newline_nonempty s) as Hne.
      destruct (split_newline s) as [|l ls]; [congruence|].
      inversion IH; subst. constructor; [|assumption].
      cbn [has_byte]. rewrite Hc. assumption.
Qed.

(** A terminated file is empty or some text followed by a newline. *)
Lemma ends_with_split (c : ascii) (s : string) :
  ends_with c s = true -> exists s0, s = s0 ++ String c EmptyString.
Proof.
  induction s as [|x s IH]; cbn [ends_with]; [discriminate|].
  destruct s as [|y s'].
  - intros H. apply ascii_eqb_eq in H as ->. by exists EmptyString.
  - intros H. destruct (IH H) as [s0 Hs0]. exists (String x s0).
    rewrite app_String. by rewrite <- Hs0.
Qed.

Lemma ends_with_snoc (c : ascii) (s : string) : ends_with c (s ++ String c EmptyString) = true.
Proof.
  induction s as [|x s IH]; rewrite ?app_String, ?app_Empty; cbn [ends_with].
  - apply Ascii.eqb_refl.
  - destruct (s ++ String c EmptyString) eqn:E; [|exact IH].
    destruct s; discriminate.
Qed.

Lemma ends_with_app_cons (c x : ascii) (a b : string) :
  ends_with c (a ++ String x b) = ends_with c (String x b).
Proof.
  induction a as [|y a IH]; [reflexivity|].
  rewrite app_String. rewrite <- IH.
  cbn [ends_with]. destruct (a ++ String x b) eqn:E; [|reflexivity].
  destruct a; discriminate.
Qed.

(** *** dropCR *)

Lemma dropCR_id (s : string) : ends_with cr s = false -> dropCR s = s.
Proof.
  induction s as [|x s IH]; cbn [ends_with dropCR]; [reflexivity|].
  destruct s as [|y s'].
  - intros ->. reflexivity.
  - intros H. by rewrite (IH H).
Qed.

Lemma dropCR_shorter (s : string) :
  ends_with cr s = true -> slen (dropCR s) = slen s - 1.
Proof.
  induction s as [|x s IH]; cbn [ends_with dropCR]; [discriminate|].
  destruct s as [|y s'].
  - intros ->. unfold slen. cbn. lia.
  - intros H. specialize (IH H). rewrite !slen_String in *. lia.
Qed.

Lemma dropCR_app_cons (a : string) (x : ascii) (b : string) :
  dropCR (a ++ String x b) = a ++ dropCR (String x b).
Proof.
  induction a as [|y a IH]; [reflexivity|].
  rewrite !app_String. rewrite <- IH. cbn [dropCR].
  destruct (a ++ String x b) eqn:E; [|reflexivity].
  destruct a; discriminate.
Qed.

Lemma dropCR_record (id t : string) :
  dropCR (record_line id t) = record_line id (dropCR t).
Proof.
  unfold record_line. rewrite dropCR_app_cons. f_equal.
  destruct t as [|y t]; reflexivity.
Qed.

Lemma has_byte_dropCR (c : ascii) (s : string) :
  has_byte c s = false -> has_byte c (dropCR s) = false.
Proof.
  induction s as [|x s IH]; cbn [has_byte dropCR]; [reflexivity|].
  intros H. apply orb_false_iff in H as [Hx Hs].
  destruct s as [|y s'].
  - destruct (Ascii.eqb x cr); cbn [has_byte]; [reflexivity|]. by rewrite Hx.
  - cbn [has_byte]. rewrite Hx. exact (IH Hs).
Qed.

(** *** scan *)

Lemma scan_pieces_last : scan_pieces [EmptyString] = ([], None).
Proof. reflexivity. Qed.

(** One more terminated line at the end of the input. *)
Lemma scan_pieces_snoc (ps : list string) (p : string) :
  scan_pieces (ps ++ [p; EmptyString]) =
    match scan_pieces (ps ++ [EmptyString]) with
    | (ls, Some c) => (ls, Some c)
    | (ls, None) =>
        if maxScanTokenSize <=? slen p then (ls, Some ErrTooLong)
        else ((ls ++ [dropCR p])%list, None)
    end.
Proof.
  induction ps as [|q ps IH].
  - cbn [app]. rewrite scan_pieces_last. cbn [scan_pieces].
    destruct (maxScanTokenSize <=? slen p); [reflexivity|].
    change (maxScanTokenSize <=? slen EmptyString) with false. reflexivity.
  - cbn [app scan_pieces].
    destruct (maxScanTokenSize <=? slen q); [reflexivity|].
    destruct (ps ++ [p; EmptyString])%list as [|x xs] eqn:E1; [destruct ps; discriminate|].
    destruct (ps ++ [EmptyString])%list as [|y ys] eqn:E2; [destruct ps; discriminate|].
    rewrite IH. destruct (scan_pieces (y :: ys)) as [ls [c|]]; [reflexivity|].
    destruct (maxScanTokenSize <=? slen p); reflexivity.
Qed.

Lemma terminated_pieces (c : string) :
  terminated c ->
  exists ps, split_newline c = (ps ++ [EmptyString])%list /\
             forall x, has_byte newline x = false ->
               split_newline (c ++ x ++ String newline EmptyString) = (ps ++ [x; EmptyString])%list.
Proof.
  intros [->|Hend].
  - exists []. split; [reflexivity|]. intros x Hx.
    rewrite app_Empty, split_newline_app, (split_newline_free x Hx). reflexivity.
  - apply ends_with_split in Hend as [c0 ->].
    exists (split_newline c0). split; [apply split_newline_app|].
    intros x Hx. rewrite string_app_assoc, app_String, app_Empty.
    rewrite split_newline_app, split_newline_app, (split_newline_free x Hx).
    reflexivity.
Qed.

(** Scanning a terminated file to which one record has been appended. *)
Lemma scan_append_line (c line : string) :
  terminated c -> has_byte newline line = false ->
  scan (c ++ line ++ String newline EmptyString) =
    match scan c with
    | (ls, Some e) => (ls, Some e)
    | (ls, None) =>
        if maxScanTokenSize <=? slen line then (ls, Some ErrTooLong)
        else ((ls ++ [dropCR line])%list, None)
    end.
Proof.
  intros Ht Hl. destruct (terminated_pieces c Ht) as (ps & Hps & Happ).
  unfold scan. rewrite (Happ line Hl), Hps. apply scan_pieces_snoc.
Qed.

Lemma terminated_append (c line : string) : terminated (c ++ line ++ String newline EmptyString).
Proof.
  right. rewrite <- string_app_assoc. apply ends_with_snoc.
Qed.

Lemma scan_pieces_free (ps : list string) :
  Forall (fun p => has_byte newline p = false) ps ->
  Forall (fun l => has_byte newline l = false) (fst (scan_pieces ps)).
Proof.
  induction ps as [|p ps IH]; intros H; cbn [scan_pieces]; [constructor|].
  inversion H as [|? ? Hp Hps]; subst.
  destruct (maxScanTokenSize <=? slen p); [constructor|].
  destruct ps as [|q ps'].
  - destruct (String.eqb p EmptyString); cbn [fst]; [constructor|].
    constructor; [by apply has_byte_dropCR|constructor].
  - specialize (IH Hps). destruct (scan_pieces (q :: ps')) as [ls e]. cbn [fst] in *.
    constructor; [by apply has_byte_dropCR|exact IH].
Qed.

Lemma scan_lines_free (data : string) :
  Forall (fun l => has_byte newline l = false) (fst (scan data)).
Proof. apply scan_pieces_free, split_newline_pieces_free. Qed.

(** *** strings.SplitN on the first tab *)

Lemma cut_tab_app (a b : string) :
  has_byte tab a = false -> cut_tab (a ++ String tab b) = Some (a, b).
Proof.
  induction a as [|x a IH]; rewrite ?app_String, ?app_Empty; cbn [cut_tab has_byte].
  - intros _. rewrite Ascii.eqb_refl. reflexivity.
  - intros H. apply orb_false_iff in H as [Hx Ha].
    rewrite Hx, (IH Ha). reflexivity.
Qed.

Lemma cut_tab_Some (s a b : string) :
  cut_tab s = Some (a, b) -> s = a ++ String tab b /\ has_byte tab a = false.
Proof.
  revert a. induction s as [|x s IH]; intros a; cbn [cut_tab]; [discriminate|].
  destruct (Ascii.eqb x tab) eqn:Hx.
  - intros [= <- <-]. apply ascii_eqb_eq in Hx as ->. split; reflexivity.
  - destruct (cut_tab s) as [[a' b']|]; [|discriminate].
    intros [= <- <-]. destruct (IH a' eq_refl) as [-> Ha'].
    split; [reflexivity|]. cbn [has_byte]. by rewrite Hx.
Qed.

Lemma cut_tab_None (s : string) : cut_tab s = None <-> has_byte tab s = false.
Proof.
  induction s as [|x s IH]; cbn [cut_tab has_byte]; [tauto|].
  destruct (Ascii.eqb x tab); cbn [orb]; [split; discriminate|].
  destruct (cut_tab s) as [[a b]|]; [|tauto].
  split; [discriminate|]. intros H. apply IH in H. discriminate.
Qed.

Lemma has_byte_cut_tab (c : ascii) (s a b : string) :
  cut_tab s = Some (a, b) -> has_byte c s = false -> has_byte c b = false.
Proof.
  intros Hcut Hs. apply cut_tab_Some in Hcut as [-> _].
  rewrite has_byte_app in Hs. apply orb_false_iff in Hs as [_ Hs].
  cbn [has_byte] in Hs. by apply orb_false_iff in Hs as [_ Hs].
Qed.

(** *** The scan loop of loadFromFile *)

Lemma load_line_eq (path : string) (m : gmap string string) (n : nat)
    (log : list LogEntry) (l : string) :
  load_line path (m, n, log) l =
    if String.eqb l EmptyString then (m, n, log)
    else match cut_tab l with
         | Some (a, b) => (<[a := b]> m, S n, log)
         | None => (m, n, (log ++ [LogSkipMalformed path l])%list)
         end.
Proof.
  unfold load_line, SplitN_tab_2.
  destruct (String.eqb l EmptyString); [reflexivity|].
  destruct (cut_tab l) as [[a b]|]; reflexivity.
Qed.

Lemma replay_snoc (path : string) (ls : list string) (l : string) :
  replay path (ls ++ [l]) = load_line path (replay path ls) l.
Proof. unfold replay. by rewrite fold_left_app. Qed.

Lemma record_line_not_empty (id t : string) : String.eqb (record_line id t) EmptyString = false.
Proof. unfold record_line. destruct id; reflexivity. Qed.

Lemma load_line_record (path : string) (m : gmap string string) (n : nat)
    (log : list LogEntry) (id t : string) :
  has_byte tab id = false ->
  load_line path (m, n, log) (record_line id t) = (<[id := t]> m, S n, log).
Proof.
  intros Hid. rewrite load_line_eq, record_line_not_empty.
  unfold record_line. by rewrite (cut_tab_app id t Hid).
Qed.

(** Every target the scan loop stores is free of newlines. *)
Lemma load_line_values_free (path : string) (st : gmap string string * nat * list LogEntry)
    (l : string) :
  has_byte newline l = false ->
  map_Forall (fun _ t => has_byte newline t = false) st.1.1 ->
  map_Forall (fun _ t => has_byte newline t = false) (load_line path st l).1.1.
Proof.
  destruct st as [[m n] log]. intros Hl Hm. rewrite load_line_eq.
  destruct (String.eqb l EmptyString); [exact Hm|].
  destruct (cut_tab l) as [[a b]|] eqn:Hcut; cbn [fst]; [|exact Hm].
  apply map_Forall_insert_2; [|exact Hm].
  by apply (has_byte_cut_tab newline l a b).
Qed.

Lemma replay_values_free (path : string) (ls : list string) :
  Forall (fun l => has_byte newline l = false) ls ->
  map_Forall (fun _ t => has_byte newline t = false) (replay path ls).1.1.
Proof.
  induction ls as [|l ls IH] using rev_ind; intros H.
  - cbn. apply map_Forall_empty.
  - apply Forall_app in H as [Hls Hl]. inversion Hl; subst.
    rewrite replay_snoc. apply load_line_values_free; [assumption|by apply IH].
Qed.

(** *** The file after an append, re-read *)

Lemma read_file_insert (fs : gmap string string) (path c : string) :
  read_file (<[path := c]> fs) path = c.
Proof. unfold read_file. by rewrite lookup_insert_eq. Qed.

Lemma read_file_insert_ne (fs : gmap string string) (path path' c : string) :
  path <> path' -> read_file (<[path := c]> fs) path' = read_file fs path'.
Proof. intros H. unfold read_file. by rewrite lookup_insert_ne. Qed.

Lemma log_index_read (path : string) (fs fs' : gmap string string) :
  read_file fs' path = read_file fs path -> log_index path fs' = log_index path fs.
Proof. unfold log_index. by intros ->. Qed.

Lemma log_index_append (path : string) (fs fs' : gmap string string)
    (id t : string) (m : gmap string string) :
  terminated (read_file fs path) ->
  log_index path fs = Some m ->
  has_byte tab id = false -> has_byte newline id = false ->
  storable_at (slen id) t ->
  read_file fs' path = read_file fs path ++ record_line id t ++ String newline EmptyString ->
  log_index path fs' = Some (<[id := t]> m).
Proof.
  intros Hterm Hidx Htab Hnl (Hfree & Hcr & Hfit) Hread.
  unfold log_index in *. rewrite Hread.
  assert (has_byte newline (record_line id t) = false) as Hline.
  { unfold record_line. rewrite has_byte_app. cbn [has_byte].
    rewrite Hnl, Hfree. reflexivity. }
  rewrite (scan_append_line _ _ Hterm Hline).
  destruct (scan (read_file fs path)) as [ls [e|]]; [discriminate|].
  assert (slen (record_line id t) = slen id + 1 + slen t) as Hlen.
  { unfold record_line. rewrite slen_app, slen_String. lia. }
  destruct (maxScanTokenSize <=? slen (record_line id t)) eqn:Hmax; [lia|].
  rewrite replay_snoc, dropCR_record, (dropCR_id t Hcr).
  injection Hidx as <-.
  destruct (replay path ls) as [[m0 n0] log0].
  by rewrite (load_line_record path m0 n0 log0 id t Htab).
Qed.

End Scanner.

(** ** Generated identifiers are words over the alphabet *)

Section Alphabet.
Import ShortID FileLog.

Lemma charset_at_in (k : Z) :
  (Z.to_nat k < String.length charset)%nat -> has_byte (charset_at k) charset = true.
Proof.
  unfold charset_at. generalize (Z.to_nat k) as n. intros n Hn.
  do 62 (destruct n as [|n]; [reflexivity|]).
  cbn in Hn. lia.
Qed.

Lemma fill_over_charset (n : nat) (rnd : Rand) : over_charset (fst (fill n rnd)) = true.
Proof.
  revert rnd. induction n as [|n IH]; intros rnd; [reflexivity|].
  cbn [fill]. pose proof (Intn_charset_range rnd) as Hk.
  destruct (Intn (Z.of_nat (String.length charset)) rnd) as [k r1]. cbn [fst] in Hk.
  specialize (IH r1). destruct (fill n r1) as [rest r2]. cbn [fst] in *.
  cbn [over_charset]. rewrite IH, (charset_at_in k Hk). reflexivity.
Qed.

Lemma generateShortID_over_charset (rnd : Rand) :
  over_charset (fst (generateShortID rnd)) = true.
Proof. apply fill_over_charset. Qed.

Lemma over_charset_lacks (c : ascii) (s : string) :
  has_byte c charset = false -> over_charset s = true -> has_byte c s = false.
Proof.
  intros Hc. induction s as [|x s IH]; cbn [over_charset has_byte]; [reflexivity|].
  intros H. apply andb_true_iff in H as [Hx Hs]. rewrite (IH Hs), orb_false_r.
  destruct (Ascii.eqb x c) eqn:E; [|reflexivity].
  apply Ascii.eqb_eq in E as ->. congruence.
Qed.

Lemma over_charset_no_tab (s : string) : over_charset s = true -> has_byte tab s = false.
Proof. apply over_charset_lacks. reflexivity. Qed.

Lemma over_charset_no_newline (s : string) :
  over_charset s = true -> has_byte newline s = false.
Proof. apply over_charset_lacks. reflexivity. Qed.

Lemma candidates_over_charset (n : nat) (rnd : Rand) :
  Forall (fun c => over_charset c = true /\ String.length c = shortIDLength)
         (candidates n rnd).
Proof.
  revert rnd. induction n as [|n IH]; intros rnd; cbn [candidates]; [constructor|].
  pose proof (generateShortID_over_charset rnd) as H1.
  pose proof (generateShortID_length rnd) as H2.
  destruct (generateShortID rnd) as [c r']. constructor; [split; assumption|apply IH].
Qed.

End Alphabet.

(** ** FileLog backend, one caller at a time *)

Section FileLogFacts.
Import ShortID FileLog.

Lemma find_unique_inv (n : nat) (m : gmap string string) (rnd : Rand) :
  match find_unique n m rnd with
  | (Some id, r') =>
      m !! id = None /\
      exists k, (k < n)%nat /\ r' = skip (shortIDLength * S k) rnd /\
                candidates n rnd !! k = Some id /\
                Forall (fun c => is_Some (m !! c)) (take k (candidates n rnd))
  | (None, r') =>
      r' = skip (shortIDLength * n) rnd /\
      Forall (fun c => is_Some (m !! c)) (candidates n rnd)
  end.
Proof.
  revert rnd. induction n as [|n IH]; intros rnd.
  - cbn [find_unique candidates]. split; [|constructor].
    unfold skip. destruct rnd as [f p]. cbn. f_equal. lia.
  - cbn [find_unique candidates]. pose proof (generateShortID_skip rnd) as Hskip.
    destruct (generateShortID rnd) as [c r'] eqn:Hgen. cbn [snd] in Hskip. subst r'.
    destruct (m !! c) as [old|] eqn:Hc.
    + specialize (IH (skip shortIDLength rnd)).
      destruct (find_unique n m (skip shortIDLength rnd)) as [[id|] r2].
      * destruct IH as (Hnone & k & Hk & Hr & Hcand & Hall).
        split; [exact Hnone|].
        exists (S k). split; [lia|]. split; [|split].
        -- rewrite Hr, skip_skip. f_equal. unfold shortIDLength. lia.
        -- exact Hcand.
        -- cbn [take]. constructor; [by rewrite Hc | exact Hall].
      * destruct IH as (Hr & Hall). split.
        -- rewrite Hr, skip_skip. f_equal. unfold shortIDLength. lia.
        -- constructor; [by rewrite Hc | exact Hall].
    + split; [exact Hc|].
      exists O. split; [lia|]. split; [|split].
      -- reflexivity.
      -- reflexivity.
      -- constructor.
Qed.

Lemma find_unique_id (n : nat) (m : gmap string string) (rnd r' : Rand) (id : string) :
  find_unique n m rnd = (Some id, r') ->
  m !! id = None /\ over_charset id = true /\ String.length id = shortIDLength.
Proof.
  intros H. pose proof (find_unique_inv n m rnd) as Hinv. rewrite H in Hinv.
  destruct Hinv as (Hnone & k & _ & _ & Hcand & _). split; [exact Hnone|].
  pose proof (candidates_over_charset n rnd) as Hall.
  rewrite Forall_lookup in Hall. exact (Hall k id Hcand).
Qed.

Lemma substring_0_0 (s : string) : String.substring 0 0 s = EmptyString.
Proof. by destruct s. Qed.

(** The three ways a Save ends, once the retry loop has run. *)
Lemma filelog_Save_cases (io : append_io) (T : string) (s : Storage)
    (fs : gmap string string) :
  match find_unique 5 (urls s) (r s) with
  | (None, r') =>
      Save io T s fs = (Err ErrExhausted, mkStorage (urls s) r' (filePath s), fs, [])
  | (Some id, r') =>
      match aopen_err io, write_err io with
      | Some e, _ =>
          Save io T s fs =
            (Err (ErrPersist (ErrOpenAppend (OsError e))),
             mkStorage (urls s) r' (filePath s), fs,
             [LogPersistError id (filePath s) (ErrOpenAppend (OsError e))])
      | None, Some (n, e) =>
          Save io T s fs =
            (Err (ErrPersist (ErrWriteRecord (OsError e))),
             mkStorage (urls s) r' (filePath s),
             <[filePath s := read_file fs (filePath s)
                             ++ String.substring 0 n
                                  (record_line id T ++ String newline EmptyString)]> fs,
             [LogPersistError id (filePath s) (ErrWriteRecord (OsError e))])
      | None, None =>
          Save io T s fs =
            (Ok id, mkStorage (<[id := T]> (urls s)) r' (filePath s),
             <[filePath s := read_file fs (filePath s)
                             ++ record_line id T ++ String newline EmptyString]> fs,
             [])
      end
  end.
Proof.
  unfold Save. destruct (find_unique 5 (urls s) (r s)) as [[id|] r'] eqn:Hfind;
    [|reflexivity].
  apply find_unique_id in Hfind as (Hnone & _).
  unfold appendToFile. cbn [filePath urls].
  destruct (aopen_err io) as [e|].
  - rewrite delete_insert_eq, (delete_id _ _ Hnone). reflexivity.
  - destruct (write_err io) as [[n e]|].
    + rewrite delete_insert_eq, (delete_id _ _ Hnone). reflexivity.
    + reflexivity.
Qed.

Lemma filelog_Save_result (io : append_io) (T : string) (s s' : Storage)
    (fs fs' : gmap string string) (res : result error string) (log : list LogEntry) :
  Save io T s fs = (res, s', fs', log) ->
  filePath s' = filePath s /\
  match res with
  | Ok id =>
      urls s !! id = None /\ over_charset id = true /\
      String.length id = shortIDLength /\
      urls s' = <[id := T]> (urls s) /\
      read_file fs' (filePath s) =
        read_file fs (filePath s) ++ record_line id T ++ String newline EmptyString
  | Err e =>
      urls s' = urls s /\
      exists torn,
        read_file fs' (filePath s) = read_file fs (filePath s) ++ torn /\
        (writes_whole_or_nothing io -> torn = EmptyString)
  end.
Proof.
  intros H. pose proof (filelog_Save_cases io T s fs) as Hc.
  destruct (find_unique 5 (urls s) (r s)) as [[id|] r'] eqn:Hfind.
  - apply find_unique_id in Hfind as (Hnone & Hover & Hlen).
    unfold writes_whole_or_nothing.
    destruct (aopen_err io) as [e|]; [|destruct (write_err io) as [[n e]|]];
      rewrite Hc in H; inversion H; subst; cbn [filePath urls];
      rewrite ?read_file_insert.
    + split; [reflexivity|]. split; [reflexivity|].
      exists EmptyString. by rewrite string_app_nil_r.
    + split; [reflexivity|]. split; [reflexivity|].
      eexists. split; [reflexivity|]. intros ->. apply substring_0_0.
    + repeat split; assumption || reflexivity.
  - rewrite Hc in H. inversion H; subst. cbn [filePath urls].
    split; [reflexivity|]. split; [reflexivity|].
    exists EmptyString. by rewrite string_app_nil_r.
Qed.

(** Save only ever adds: an entry once present stays as it is. *)
Lemma filelog_Save_mono (io : append_io) (T : string) (s : Storage)
    (fs : gmap string string) (id t : string) :
  urls s !! id = Some t -> urls (Save io T s fs).1.1.2 !! id = Some t.
Proof.
  intros Hin. destruct (Save io T s fs) as [[[res s'] fs'] log] eqn:HS. cbn [fst snd].
  apply filelog_Save_result in HS as [_ HS]. destruct res as [id'|e].
  - destruct HS as (Hnone & _ & _ & -> & _).
    rewrite lookup_insert_ne; [exact Hin|congruence].
  - destruct HS as [-> _]. exact Hin.
Qed.

(** A Save of a storable target keeps the index and the log together. *)
Lemma filelog_Save_sync (io : append_io) (T : string) (s s' : Storage)
    (fs fs' : gmap string string) (res : result error string) (log : list LogEntry) :
  storable T -> writes_whole_or_nothing io ->
  terminated (read_file fs (filePath s)) -> agrees s fs ->
  Save io T s fs = (res, s', fs', log) ->
  terminated (read_file fs' (filePath s')) /\ agrees s' fs'.
Proof.
  intros HT Hio Hterm Hagree HS. apply filelog_Save_result in HS as [Hpath HS].
  unfold agrees in *. rewrite Hpath. destruct res as [id|e].
  - destruct HS as (Hnone & Hover & Hlen & -> & Hread). split.
    + rewrite Hread. apply terminated_append.
    + apply (log_index_append _ fs fs' id T (urls s)); auto.
      * by apply over_charset_no_tab.
      * by apply over_charset_no_newline.
      * unfold storable in HT. unfold slen. by rewrite Hlen.
  - destruct HS as (-> & torn & Hread & Htorn).
    rewrite (Htorn Hio), string_app_nil_r in Hread. split; [by rewrite Hread|].
    by rewrite (log_index_read _ fs fs' Hread).
Qed.

Lemma filelog_Save_all_inv (reqs : list (string * append_io)) :
  forall (s s' : Storage) (fs fs' : gmap string string)
         (out : list (string * result error string)),
  Save_all reqs s fs = (out, s', fs') ->
  filePath s' = filePath s /\
  (forall id t, urls s' !! id = Some t <->
                (urls s !! id = Some t \/ In (t, Ok id) out)) /\
  (Forall (fun q => storable q.1) reqs ->
   Forall (fun q => writes_whole_or_nothing q.2) reqs ->
   terminated (read_file fs (filePath s)) -> agrees s fs ->
   terminated (read_file fs' (filePath s')) /\ agrees s' fs').
Proof.
  induction reqs as [|[T io] reqs IH]; intros s s' fs fs' out H.
  - cbn in H. inversion H; subst. split; [reflexivity|]. split; [|tauto].
    intros id t. cbn [In]. tauto.
  - cbn [Save_all] in H.
    destruct (Save io T s fs) as [[[res s1] fs1] log1] eqn:HS.
    destruct (Save_all reqs s1 fs1) as [[rest s2] fs2] eqn:HA.
    inversion H; subst out s' fs'. clear H.
    destruct (IH _ _ _ _ _ HA) as (Hpath & Hlook & Hsync).
    pose proof (filelog_Save_result _ _ _ _ _ _ _ _ HS) as [Hpath1 Hres].
    split; [congruence|]. split.
    + intros id t. rewrite (Hlook id t). cbn [In].
      destruct res as [id1|e].
      * destruct Hres as (Hnone & _ & _ & Hurls & _). rewrite Hurls.
        destruct (decide (id1 = id)) as [->|Hne].
        -- rewrite lookup_insert_eq. split.
           ++ intros [Heq|Hin]; [|tauto]. inversion Heq; subst. right. left. reflexivity.
           ++ intros [Hold|[Heq|Hin]]; [congruence| |tauto].
              inversion Heq; subst. left. reflexivity.
        -- rewrite lookup_insert_ne by exact Hne. split; [tauto|].
           intros [Hold|[Heq|Hin]]; [tauto| |tauto]. inversion Heq; congruence.
      * destruct Hres as [Hurls _]. rewrite Hurls. split; [tauto|].
        intros [Hold|[Heq|Hin]]; [tauto| |tauto]. inversion Heq.
    + intros Hall Hios Hterm Hagree. inversion Hall as [|? ? HT Hrest]; subst.
      inversion Hios as [|? ? Hio Hiorest]; subst.
      destruct (filelog_Save_sync _ _ _ _ _ _ _ _ HT Hio Hterm Hagree HS) as [Ht1 Ha1].
      apply Hsync; assumption.
Qed.

(** *** NewStorage *)

Lemma loadFromFile_ok (s : Storage) (fs : gmap string string) (m : gmap string string) :
  log_index (filePath s) fs = Some m ->
  exists log,
    loadFromFile io_ok s fs =
      (None, mkStorage m (r s) (filePath s),
       <[filePath s := read_file fs (filePath s)]> fs, log).
Proof.
  unfold log_index, loadFromFile. cbn [open_err read_err io_ok].
  destruct (scan (read_file fs (filePath s))) as [lines [c|]]; [discriminate|].
  destruct (replay (filePath s) lines) as [[m0 n0] log0]. cbn [fst].
  intros [= <-]. by exists log0.
Qed.

Lemma NewStorage_ok (draws : nat -> Z) (path : string) (fs : gmap string string)
    (m : gmap string string) :
  log_index path fs = Some m ->
  exists log,
    NewStorage draws path io_ok fs =
      (Ok (mkStorage m (newRand draws) path), <[path := read_file fs path]> fs, log).
Proof.
  intros H. unfold NewStorage.
  destruct (loadFromFile_ok (mkStorage ∅ (newRand draws) path) fs m H) as [log Hl].
  cbn [filePath r] in Hl. rewrite Hl. eauto.
Qed.

Lemma NewStorage_agrees (draws : nat -> Z) (path : string) (fs fs1 : gmap string string)
    (s : Storage) (log : list LogEntry) :
  snd (scan (read_file fs path)) = None ->
  NewStorage draws path io_ok fs = (Ok s, fs1, log) ->
  filePath s = path /\ read_file fs1 path = read_file fs path /\ agrees s fs1.
Proof.
  intros Hscan HN.
  assert (exists m, log_index path fs = Some m) as [m Hm].
  { unfold log_index. destruct (scan (read_file fs path)) as [ls e].
    cbn [snd] in Hscan. subst e. eauto. }
  destruct (NewStorage_ok draws path fs m Hm) as [log' HN'].
  rewrite HN' in HN. inversion HN; subst. cbn [filePath].
  split; [reflexivity|]. rewrite read_file_insert. split; [reflexivity|].
  unfold agrees. cbn [filePath urls].
  rewrite <- Hm. apply log_index_read. apply read_file_insert.
Qed.

Lemma loadFromFile_ok_inv (s s2 : Storage) (fs fs2 : gmap string string)
    (log : list LogEntry) :
  loadFromFile io_ok s fs = (None, s2, fs2, log) ->
  log_index (filePath s) fs = Some (urls s2) /\ filePath s2 = filePath s.
Proof.
  unfold log_index, loadFromFile. cbn [open_err read_err io_ok].
  destruct (scan (read_file fs (filePath s))) as [lines [c|]];
    destruct (replay (filePath s) lines) as [[m0 n0] log0]; [discriminate|].
  intros H. inversion H; subst. cbn [urls fst filePath]. split; reflexivity.
Qed.

(** When loadFromFile reports an error, and which. *)
Lemma loadFromFile_error (io : load_io) (s : Storage) (fs : gmap string string) :
  (loadFromFile io s fs).1.1.1 =
    match open_err io with
    | Some e => Some (ErrOpenStorage (OsError e))
    | None =>
        let delivered :=
          match read_err io with
          | Some (k, _) => String.substring 0 k (read_file fs (filePath s))
          | None => read_file fs (filePath s)
          end in
        match snd (scan delivered), read_err io with
        | Some c, _ => Some (ErrReadStorage c)
        | None, Some (_, e) => Some (ErrReadStorage (OsError e))
        | None, None => None
        end
    end.
Proof.
  unfold loadFromFile. destruct (open_err io) as [e|]; [reflexivity|].
  cbv zeta.
  destruct (scan _) as [lines tooLong].
  destruct (replay (filePath s) lines) as [[m0 n0] log0].
  destruct tooLong as [c|]; [reflexivity|].
  destruct (read_err io) as [[k e]|]; reflexivity.
Qed.

End FileLogFacts.

Section Replay.
Import ShortID FileLog.

Lemma cut_tab_record (l id t : string) :
  cut_tab l = Some (id, t) <-> l = record_line id t /\ has_byte tab id = false.
Proof.
  split.
  - apply cut_tab_Some.
  - intros [-> Hid]. by apply cut_tab_app.
Qed.

(** What one pass of the loop body does to one key. *)
Lemma load_line_lookup (path : string) (st : gmap string string * nat * list LogEntry)
    (l id : string) :
  (load_line path st l).1.1 !! id =
    match cut_tab l with
    | Some (a, b) => if decide (a = id) then Some b else st.1.1 !! id
    | None => st.1.1 !! id
    end.
Proof.
  destruct st as [[m n] log]. rewrite load_line_eq.
  destruct (String.eqb l EmptyString) eqn:El.
  - apply String.eqb_eq in El as ->. reflexivity.
  - destruct (cut_tab l) as [[a b]|]; cbn [fst]; [|reflexivity].
    rewrite lookup_insert. destruct (decide (a = id)); reflexivity.
Qed.

Lemma snoc_split {A : Type} (xs pre post : list A) (x y : A) :
  (xs ++ [x] = pre ++ y :: post)%list ->
  (post = [] /\ pre = xs /\ y = x) \/
  (exists post', post = (post' ++ [x])%list /\ xs = (pre ++ y :: post')%list).
Proof.
  intros H. destruct post as [|p post _] using rev_ind.
  - left. apply app_inj_tail in H as [-> ->]. auto.
  - right. exists post.
    change (pre ++ y :: post ++ [p])%list with (pre ++ (y :: post) ++ [p])%list in H.
    rewrite app_assoc in H. apply app_inj_tail in H as [-> ->]. auto.
Qed.

(** Last write wins: the target of a key is that of the last line that
    starts with the key and a tab. *)
Lemma replay_lookup_cut (path : string) (lines : list string) (id t : string) :
  (replay path lines).1.1 !! id = Some t <->
  exists pre l0 post,
    lines = (pre ++ l0 :: post)%list /\ cut_tab l0 = Some (id, t) /\
    Forall (fun l => forall t', cut_tab l <> Some (id, t')) post.
Proof.
  induction lines as [|l lines IH] using rev_ind.
  - cbn. rewrite lookup_empty. split; [discriminate|].
    intros (pre & l0 & post & H & _). destruct pre; discriminate.
  - rewrite replay_snoc, load_line_lookup.
    destruct (cut_tab l) as [[a b]|] eqn:Hcut.
    + destruct (decide (a = id)) as [->|Hne].
      * split.
        -- intros [= ->]. exists lines, l, []. auto.
        -- intros (pre & l0 & post & H & Hl0 & Hpost).
           apply snoc_split in H as [(-> & -> & ->)|(post' & -> & ->)].
           ++ congruence.
           ++ apply Forall_app in Hpost as [_ Hl]. inversion Hl as [|? ? Hl' _]; subst.
              destruct (Hl' b Hcut).
      * rewrite IH. split.
        -- intros (pre & l0 & post & -> & Hl0 & Hpost).
           exists pre, l0, (post ++ [l])%list. split; [by rewrite <- app_assoc|].
           split; [exact Hl0|]. apply Forall_app. split; [exact Hpost|].
           constructor; [|constructor]. intros t'. congruence.
        -- intros (pre & l0 & post & H & Hl0 & Hpost).
           apply snoc_split in H as [(-> & -> & ->)|(post' & -> & ->)].
           ++ congruence.
           ++ apply Forall_app in Hpost as [Hpost _]. eauto 6.
    + rewrite IH. split.
      * intros (pre & l0 & post & -> & Hl0 & Hpost).
        exists pre, l0, (post ++ [l])%list. split; [by rewrite <- app_assoc|].
        split; [exact Hl0|]. apply Forall_app. split; [exact Hpost|].
        constructor; [|constructor]. intros t'. congruence.
      * intros (pre & l0 & post & H & Hl0 & Hpost).
        apply snoc_split in H as [(-> & -> & ->)|(post' & -> & ->)].
        -- congruence.
        -- apply Forall_app in Hpost as [Hpost _]. eauto 6.
Qed.

Lemma replay_lookup (path : string) (lines : list string) (id t : string) :
  (replay path lines).1.1 !! id = Some t <->
  exists pre post,
    lines = (pre ++ record_line id t :: post)%list /\ has_byte tab id = false /\
    Forall (fun l => forall t', l <> record_line id t') post.
Proof.
  rewrite replay_lookup_cut. split.
  - intros (pre & l0 & post & -> & Hl0 & Hpost).
    apply cut_tab_record in Hl0 as [-> Hid].
    exists pre, post. split; [reflexivity|]. split; [exact Hid|].
    eapply Forall_impl; [exact Hpost|]. cbn. intros l Hl t' ->.
    apply (Hl t'). by apply cut_tab_record.
  - intros (pre & post & -> & Hid & Hpost).
    exists pre, (record_line id t), post. split; [reflexivity|].
    split; [by apply cut_tab_record|].
    eapply Forall_impl; [exact Hpost|]. cbn. intros l Hl t' Hc.
    apply cut_tab_record in Hc as [-> _]. by apply (Hl t').
Qed.

(** The diagnostics: one for each malformed line, in order. *)
Lemma replay_log (path : string) (lines : list string) :
  (replay path lines).2 = map (LogSkipMalformed path) (List.filter malformed lines).
Proof.
  induction lines as [|l lines IH] using rev_ind; [reflexivity|].
  rewrite replay_snoc, List.filter_app, map_app, <- IH.
  destruct (replay path lines) as [[m n] log]. rewrite load_line_eq.
  cbn [List.filter snd]. unfold malformed.
  destruct (String.eqb l EmptyString); cbn [negb andb map]; [by rewrite app_nil_r|].
  destruct (cut_tab l) as [[a b]|] eqn:Hcut.
  - apply cut_tab_Some in Hcut as [-> _]. rewrite has_byte_app. cbn [has_byte].
    rewrite Ascii.eqb_refl, orb_true_r. cbn [negb map snd]. by rewrite app_nil_r.
  - apply cut_tab_None in Hcut. rewrite Hcut. reflexivity.
Qed.

Lemma log_index_values_free (path : string) (fs : gmap string string)
    (m : gmap string string) :
  log_index path fs = Some m ->
  map_Forall (fun _ t => has_byte newline t = false) m.
Proof.
  unfold log_index. pose proof (scan_lines_free (read_file fs path)) as Hfree.
  destruct (scan (read_file fs path)) as [lines [c|]]; [discriminate|].
  intros [= <-]. by apply replay_values_free.
Qed.

End Replay.

(** ** Relational backend *)

Section RelationalFacts.
Import ShortID Relational.

Lemma skip_0 (rnd : Rand) : skip 0 rnd = rnd.
Proof. destruct rnd as [f p]. unfold skip. cbn [src pos]. f_equal. lia. Qed.

Lemma after_0 (s : Storage) : after 0 s = s.
Proof.
  destruct s as [[rw f c] rnd]. unfold after. cbn [db r rows faults calls].
  rewrite Nat.mul_0_r, skip_0, Nat.add_0_r. reflexivity.
Qed.

Lemma after_after (a b : nat) (s : Storage) : after a (after b s) = after (b + a) s.
Proof.
  unfold after. cbn [db r rows faults calls]. rewrite skip_skip. f_equal.
  - f_equal. lia.
  - f_equal. lia.
Qed.

Lemma ExecInsert_Some (id T : string) (d : DB) (e : db_error) :
  fst (ExecInsert id T d) = Some e ->
  snd (ExecInsert id T d) = mkDB (rows d) (faults d) (S (calls d)).
Proof.
  unfold ExecInsert. destruct (faults d (calls d)); [reflexivity|].
  destruct (rows d !! id); [reflexivity|discriminate].
Qed.

Lemma ExecInsert_None (id T : string) (d : DB) :
  fst (ExecInsert id T d) = None ->
  snd (ExecInsert id T d) = mkDB (<[id := T]> (rows d)) (faults d) (S (calls d)).
Proof.
  unfold ExecInsert. destruct (faults d (calls d)); [discriminate|].
  destruct (rows d !! id); [discriminate|reflexivity].
Qed.

(** One turn of the loop, by what attempt 0 meets. *)
Lemma relational_Save_loop_step (n : nat) (T : string) (s : Storage) :
  Save_loop (S n) T s =
    match (attempt 0 T s).2 with
    | None =>
        (Ok (attempt 0 T s).1,
         mkStorage (mkDB (<[(attempt 0 T s).1 := T]> (rows (db s))) (faults (db s))
                         (S (calls (db s))))
                   (skip shortIDLength (r s)), [])
    | Some e =>
        if is_unique_violation e then
          let '(res, s2, log) := Save_loop n T (after 1 s) in
          (res, s2, LogCollision (attempt 0 T s).1 :: log)
        else (Err (ErrSave e), after 1 s, [LogSaveError e])
    end.
Proof.
  unfold attempt. rewrite after_0. cbn [Save_loop fst snd].
  pose proof (generateShortID_skip (r s)) as Hskip.
  destruct (generateShortID (r s)) as [id r']. cbn [fst snd] in *. subst r'.
  pose proof (ExecInsert_Some id T (db s)) as HS.
  pose proof (ExecInsert_None id T (db s)) as HN.
  destruct (ExecInsert id T (db s)) as [[e|] db']; cbn [fst snd] in *.
  - rewrite (HS e eq_refl).
    assert (after 1 s
            = mkStorage (mkDB (rows (db s)) (faults (db s)) (S (calls (db s))))
                        (skip shortIDLength (r s))) as ->.
    { unfold after. by rewrite Nat.add_1_r, Nat.mul_1_r. }
    reflexivity.
  - rewrite (HN eq_refl). reflexivity.
Qed.

Lemma attempt_after (i : nat) (T : string) (s : Storage) :
  attempt i T (after 1 s) = attempt (S i) T s.
Proof. unfold attempt. rewrite after_after. reflexivity. Qed.

Lemma candidates_S (n : nat) (rnd : Rand) :
  candidates (S n) rnd
  = fst (generateShortID rnd) :: candidates n (skip shortIDLength rnd).
Proof.
  cbn [candidates]. pose proof (generateShortID_skip rnd) as H.
  destruct (generateShortID rnd) as [id r']. cbn [fst snd] in *. by subst.
Qed.

(** After [k] collisions the loop stands at [after k s] with [k] fewer
    turns left and [k] collisions logged. *)
Lemma relational_Save_loop_collisions (k : nat) :
  forall (n : nat) (T : string) (s : Storage),
  (forall i, (i < k)%nat -> collides i T s) ->
  Save_loop (k + n) T s =
    (let '(res, s', log) := Save_loop n T (after k s) in
     (res, s', (map LogCollision (candidates k (r s)) ++ log)%list)).
Proof.
  induction k as [|k IH]; intros n T s Hcol.
  - rewrite after_0. cbn [Nat.add candidates map app].
    by destruct (Save_loop n T s) as [[res s'] log].
  - cbn [Nat.add]. rewrite relational_Save_loop_step.
    destruct (Hcol O ltac:(lia)) as (e & He & Hu). rewrite He, Hu.
    rewrite (IH n T (after 1 s)).
    + rewrite after_after. cbn [Nat.add].
      destruct (Save_loop n T (after (S k) s)) as [[res s'] log].
      rewrite candidates_S. cbn [map app after r]. unfold attempt.
      rewrite after_0, Nat.mul_1_r. reflexivity.
    + intros i Hi. unfold collides. rewrite attempt_after. apply Hcol. lia.
Qed.

(** Either every one of the first [n] attempts collides, or there is a
    first one that does not. *)
Lemma first_non_collision (n : nat) (T : string) (s : Storage) :
  (forall i, (i < n)%nat -> collides i T s) \/
  exists k, (k < n)%nat /\ (forall i, (i < k)%nat -> collides i T s) /\
            match (attempt k T s).2 with
            | None => True
            | Some e => is_unique_violation e = false
            end.
Proof.
  induction n as [|n [IH|(k & Hk & Hpre & Hat)]].
  - left. intros i Hi. lia.
  - destruct (attempt n T s).2 as [e|] eqn:He.
    + destruct (is_unique_violation e) eqn:Hu.
      * left. intros i Hi. destruct (decide (i = n)) as [->|Hne].
        -- exists e. auto.
        -- apply IH. lia.
      * right. exists n. split; [lia|]. split; [exact IH|]. by rewrite He.
    + right. exists n. split; [lia|]. split; [exact IH|]. by rewrite He.
  - right. exists k. split; [lia|]. auto.
Qed.

Lemma attempt_after_k (k i : nat) (T : string) (s : Storage) :
  attempt i T (after k s) = attempt (k + i) T s.
Proof. unfold attempt. rewrite after_after. reflexivity. Qed.

(** The outcome of a Save whose first [k] attempts collide, by what
    attempt [k] meets. *)
Lemma relational_Save_at (k m : nat) (T : string) (s : Storage) :
  (forall i, (i < k)%nat -> collides i T s) ->
  Save_loop (k + S m) T s =
    match (attempt k T s).2 with
    | None =>
        (Ok (attempt k T s).1,
         mkStorage (mkDB (<[(attempt k T s).1 := T]> (rows (db s))) (faults (db s))
                         (calls (db s) + S k))
                   (skip (shortIDLength * S k) (r s)),
         map LogCollision (candidates k (r s)))
    | Some e =>
        if is_unique_violation e then
          let '(res, s2, log) := Save_loop m T (after (S k) s) in
          (res, s2,
           (map LogCollision (candidates k (r s))
              ++ LogCollision (attempt k T s).1 :: log)%list)
        else (Err (ErrSave e), after (S k) s,
              (map LogCollision (candidates k (r s)) ++ [LogSaveError e])%list)
    end.
Proof.
  intros Hcol. rewrite (relational_Save_loop_collisions k (S m) T s Hcol).
  rewrite relational_Save_loop_step, attempt_after_k, Nat.add_0_r, after_after.
  replace (k + 1)%nat with (S k) by lia.
  destruct (attempt k T s).2 as [e|].
  - destruct (is_unique_violation e); [|reflexivity].
    by destruct (Save_loop m T (after (S k) s)) as [[res s2] log].
  - rewrite app_nil_r. unfold after at 1 2 3 4. cbn [db r rows faults calls].
    rewrite skip_skip. repeat f_equal; lia.
Qed.

End RelationalFacts.

Section ConcurrentFacts.
Import ShortID MemoryConc.

Lemma run_app (a b : list nat) (sh : Shared) (ts : list pc) :
  run (a ++ b) sh ts =
    match run a sh ts with
    | Some (sh', ts') => run b sh' ts'
    | None => None
    end.
Proof.
  revert sh ts. induction a as [|i a IH]; intros sh ts; [reflexivity|].
  cbn [app run]. destruct (ts !! i) as [t|]; [|reflexivity].
  destruct (step sh t) as [[sh' t']|]; [apply IH|reflexivity].
Qed.

(** A goroutine that runs alone through the loop of Save does what the
    sequential [Memory.Save_loop] does. *)
Lemma memory_solo_loop (n : nat) :
  forall (i : nat) (u : string) (sh : Shared),
  (i + n = 5)%nat ->
  exists sched sh',
    run sched sh [SaveLoop u i] =
      Some (sh', [SaveReturn (Memory.Save_loop n u (Memory.mkStorage (urls sh) (r sh))).1]) /\
    Memory.mkStorage (urls sh') (r sh')
      = (Memory.Save_loop n u (Memory.mkStorage (urls sh) (r sh))).2 /\
    readers sh' = readers sh /\ writer sh' = writer sh /\ waiting sh' = waiting sh.
Proof.
  induction n as [|n IH]; intros i u sh Hi.
  - exists [0%nat], sh. assert (i = 5%nat) as -> by lia. cbn. auto.
  - assert (Nat.ltb i 5 = true) as Hlt by (apply Nat.ltb_lt; lia).
    cbn [Memory.Save_loop Memory.urls Memory.r].
    destruct (generateShortID (r sh)) as [id r'] eqn:Hgen.
    destruct (urls sh !! id) as [old|] eqn:Hid.
    + destruct (IH (S i) u (mkShared (urls sh) r' (readers sh) (writer sh) (waiting sh))
                  ltac:(lia)) as (sched & sh' & Hrun & Hst & Hrd & Hwr & Hwt).
      cbn [urls r readers writer waiting] in *.
      exists (0 :: 0 :: sched)%nat, sh'. split; [|auto].
      cbn [run lookup list_lookup step]. rewrite Hlt, Hgen.
      cbn [run lookup list_lookup step urls insert list_insert]. rewrite Hid.
      cbn [insert list_insert]. exact Hrun.
    + exists [0; 0; 0]%nat,
        (mkShared (<[id := u]> (urls sh)) r' (readers sh) (writer sh) (waiting sh)).
      split; [|cbn; auto].
      cbn [run lookup list_lookup step]. rewrite Hlt, Hgen.
      cbn [run lookup list_lookup step urls insert list_insert]. rewrite Hid.
      reflexivity.
Qed.

Lemma memory_solo_Save (u : string) (sh : Shared) :
  writer sh = false -> waiting sh = 0%nat ->
  exists sched sh',
    run sched sh [SaveCall u] =
      Some (sh', [Done (Memory.Save u (Memory.mkStorage (urls sh) (r sh))).1]) /\
    Memory.mkStorage (urls sh') (r sh')
      = (Memory.Save u (Memory.mkStorage (urls sh) (r sh))).2 /\
    readers sh' = readers sh /\ writer sh' = false /\ waiting sh' = 0%nat.
Proof.
  intros Hw Hwait. destruct sh as [m rnd rd w wt].
  cbn [writer waiting] in Hw, Hwait. subst w wt.
  destruct (memory_solo_loop 5 0 u (mkShared m rnd (S rd) false 0) eq_refl)
    as (sched & sh' & Hrun & Hst & Hrd & Hwr & Hwt).
  cbn [urls r readers writer waiting] in *.
  exists (0%nat :: sched ++ [0%nat])%list,
    (mkShared (urls sh') (r sh') (Nat.pred (readers sh')) (writer sh') (waiting sh')).
  split; [|split; [exact Hst|]].
  - cbn [run lookup list_lookup step writer waiting urls r readers].
    cbn [negb andb Nat.eqb insert list_insert]. rewrite run_app, Hrun. reflexivity.
  - cbn [readers writer waiting]. rewrite Hrd, Hwr, Hwt. auto.
Qed.

End ConcurrentFacts.

(** * The claims *)

(** C2 (round trip, one store): when Save of a target T succeeds and
    returns an identifier, Load of that identifier on the resulting store
    returns exactly T and leaves the store as it is. *)
Theorem save_load_roundtrip (T : string) (s s' : Memory.Storage) (id : string) :
  Memory.Save T s = (Ok id, s') -> Memory.Load id s' = (Ok T, s').
Proof.
  intros H. apply memory_Save_Ok in H as [_ Hurls].
  unfold Memory.Load. rewrite Hurls, lookup_insert_eq. reflexivity.
Qed.

Lemma save_load_roundtrip_witness :
  Memory.Load "abcdef" (snd (Memory.Save "https://go.dev/doc" (Memory.NewStorage cyclic6)))
  = (Ok "https://go.dev/doc",
     snd (Memory.Save "https://go.dev/doc" (Memory.NewStorage cyclic6))).
Proof.
  apply (save_load_roundtrip "https://go.dev/doc" (Memory.NewStorage cyclic6)).
  vm_compute. reflexivity.
Defined.

(** The same round trip on the FileLog store. *)
Lemma filelog_save_load_roundtrip (io : FileLog.append_io) (T : string)
    (s s' : FileLog.Storage) (fs fs' : gmap string string) (id : string)
    (log : list FileLog.LogEntry) :
  FileLog.Save io T s fs = (Ok id, s', fs', log) -> FileLog.Load id s' = (Ok T, s').
Proof.
  intros H. apply filelog_Save_result in H as [_ (_ & _ & _ & Hurls & _)].
  unfold FileLog.Load. rewrite Hurls, lookup_insert_eq. reflexivity.
Qed.

(** What the rollback undoes: when the retry loop has found a free
    identifier and the append to the file then fails, Save returns the
    persistence failure, the in-memory map is exactly what it was before
    the call and a Load of that identifier reports not-found.  The file
    keeps its old content followed by the bytes the failed write had
    delivered; when there are none, an index that agreed with the log
    still agrees. *)
Lemma filelog_rollback_restores_map (io : FileLog.append_io) (T : string)
    (s : FileLog.Storage) (fs : gmap string string) (id : string)
    (r' : ShortID.Rand) (e : FileLog.error) :
  FileLog.find_unique 5 (FileLog.urls s) (FileLog.r s) = (Some id, r') ->
  fst (FileLog.appendToFile io
         (FileLog.mkStorage (<[id := T]> (FileLog.urls s)) r' (FileLog.filePath s))
         id T fs) = Some e ->
  exists s' fs' log torn,
    FileLog.Save io T s fs = (Err (FileLog.ErrPersist e), s', fs', log) /\
    FileLog.urls s' = FileLog.urls s /\
    FileLog.Load id s' = (Err (FileLog.ErrNotFound id), s') /\
    FileLog.read_file fs' (FileLog.filePath s)
      = FileLog.read_file fs (FileLog.filePath s) ++ torn /\
    (FileLog.writes_whole_or_nothing io ->
     torn = EmptyString /\ (FileLog.agrees s fs -> FileLog.agrees s' fs')).
Proof.
  intros Hfind Happ.
  pose proof (filelog_Save_cases io T s fs) as Hc. rewrite Hfind in Hc.
  pose proof (find_unique_id _ _ _ _ _ Hfind) as (Hnone & _).
  unfold FileLog.appendToFile in Happ. cbn [FileLog.filePath] in Happ.
  unfold FileLog.writes_whole_or_nothing.
  destruct (FileLog.aopen_err io) as [e1|].
  - cbn [fst] in Happ. injection Happ as <-.
    eexists _, _, _, EmptyString. split; [exact Hc|].
    cbn [FileLog.urls FileLog.filePath]. split; [reflexivity|]. split; [|split].
    + unfold FileLog.Load. cbn [FileLog.urls]. by rewrite Hnone.
    + by rewrite string_app_nil_r.
    + intros _. split; [reflexivity|].
      unfold FileLog.agrees. cbn [FileLog.urls FileLog.filePath]. tauto.
  - destruct (FileLog.write_err io) as [[n e2]|]; [|discriminate].
    cbn [fst] in Happ. injection Happ as <-.
    eexists _, _, _, _. split; [exact Hc|]. cbn [FileLog.urls FileLog.filePath].
    split; [reflexivity|]. split; [|split].
    + unfold FileLog.Load. cbn [FileLog.urls]. by rewrite Hnone.
    + apply read_file_insert.
    + intros ->. rewrite substring_0_0. split; [reflexivity|].
      unfold FileLog.agrees. cbn [FileLog.urls FileLog.filePath]. intros <-.
      apply log_index_read. by rewrite read_file_insert, string_app_nil_r.
Qed.

Example filelog_rollback_restores_map_on_full_disk :
  exists s' fs' log torn,
    FileLog.Save disk_full "https://pkg.go.dev" empty_filelog ∅
      = (Err (FileLog.ErrPersist
                (FileLog.ErrWriteRecord (FileLog.OsError "no space left on device"))),
         s', fs', log) /\
    FileLog.urls s' = FileLog.urls empty_filelog /\
    FileLog.Load "abcdef" s' = (Err (FileLog.ErrNotFound "abcdef"), s') /\
    FileLog.read_file fs' (FileLog.filePath empty_filelog)
      = FileLog.read_file ∅ (FileLog.filePath empty_filelog) ++ torn /\
    (FileLog.writes_whole_or_nothing disk_full ->
     torn = EmptyString /\ (FileLog.agrees empty_filelog ∅ -> FileLog.agrees s' fs')).
Proof.
  apply (filelog_rollback_restores_map disk_full "https://pkg.go.dev" empty_filelog ∅
           "abcdef" (ShortID.mkRand cyclic6 6)).
  - vm_compute. reflexivity.
  - vm_compute. reflexivity.
Qed.

(** C3 (FileLog rollback) fails on the code: the rollback undoes the insert
    in the map and nothing in the file.  A WriteString that fails after 18
    bytes of the record leaves those bytes behind: Save returns the
    persistence failure, the map is empty again and Load reports not-found,
    but the log now holds a line for "abcdef" with a cut target, so the
    index, which agreed with the log before the call, no longer does. *)
Theorem filelog_torn_write_survives_rollback :
  let failure :=
    FileLog.ErrWriteRecord (FileLog.OsError "no space left on device") in
  let s' := FileLog.mkStorage ∅ (ShortID.mkRand cyclic6 6) "urls.tsv" in
  let fs' : gmap string string :=
    {["urls.tsv" := FileLog.record_line "abcdef" "https://pkg"]} in
  FileLog.agrees empty_filelog {["urls.tsv" := EmptyString]} /\
  FileLog.Save torn_write "https://pkg.go.dev" empty_filelog {["urls.tsv" := EmptyString]}
    = (Err (FileLog.ErrPersist failure), s', fs',
       [FileLog.LogPersistError "abcdef" "urls.tsv" failure]) /\
  FileLog.Load "abcdef" s' = (Err (FileLog.ErrNotFound "abcdef"), s') /\
  FileLog.log_index "urls.tsv" fs' = Some {["abcdef" := "https://pkg"]} /\
  ~ FileLog.agrees s' fs'.
Proof.
  cbv zeta.
  split; [vm_compute; reflexivity|].
  split; [vm_compute; reflexivity|].
  split; [vm_compute; reflexivity|].
  split; [vm_compute; reflexivity|].
  unfold FileLog.agrees. vm_compute. discriminate.
Qed.

(** C4 (bounded retry, exhaustion): a Save draws between one and five
    candidates, seen as the random source advancing by that many
    identifiers; when the five candidates are all keys of the map, Save
    returns the exhausted failure with the map unchanged and, for FileLog,
    the file system untouched and nothing logged. *)
Theorem save_retry_bound_exhaustion :
  (forall T s, exists k, (1 <= k <= 5)%nat /\
     Memory.r (snd (Memory.Save T s))
       = ShortID.skip (ShortID.shortIDLength * k) (Memory.r s)) /\
  (forall T s,
     Forall (fun c => is_Some (Memory.urls s !! c))
            (ShortID.candidates 5 (Memory.r s)) ->
     Memory.Save T s
       = (Err Memory.ErrExhausted,
          Memory.mkStorage (Memory.urls s)
            (ShortID.skip (ShortID.shortIDLength * 5) (Memory.r s)))) /\
  (forall io T s fs, exists k, (1 <= k <= 5)%nat /\
     FileLog.r (FileLog.Save io T s fs).1.1.2
       = ShortID.skip (ShortID.shortIDLength * k) (FileLog.r s)) /\
  (forall io T s fs,
     Forall (fun c => is_Some (FileLog.urls s !! c))
            (ShortID.candidates 5 (FileLog.r s)) ->
     FileLog.Save io T s fs
       = (Err FileLog.ErrExhausted,
          FileLog.mkStorage (FileLog.urls s)
            (ShortID.skip (ShortID.shortIDLength * 5) (FileLog.r s))
            (FileLog.filePath s),
          fs, [])).
Proof.
  split; [|split; [|split]].
  - intros T s. pose proof (memory_Save_loop_inv 5 T s) as Hinv.
    unfold Memory.Save. destruct (Memory.Save_loop 5 T s) as [[id|e] s']; cbn [snd].
    + destruct Hinv as (_ & _ & k & Hk & Hr & _). exists (S k). split; [lia|exact Hr].
    + destruct Hinv as (_ & _ & Hr & _). exists 5%nat. split; [lia|exact Hr].
  - intros T s Hall. pose proof (memory_Save_loop_inv 5 T s) as Hinv.
    unfold Memory.Save. destruct (Memory.Save_loop 5 T s) as [[id|e] s'].
    + destruct Hinv as (Hnone & _ & k & _ & _ & Hcand & _).
      rewrite Forall_lookup in Hall. specialize (Hall k id Hcand).
      rewrite Hnone in Hall. by destruct Hall.
    + destruct Hinv as (-> & Hurls & Hr & _). destruct s' as [m' r'].
      cbn [Memory.urls Memory.r] in *. by subst.
  - intros io T s fs. pose proof (filelog_Save_cases io T s fs) as Hc.
    pose proof (find_unique_inv 5 (FileLog.urls s) (FileLog.r s)) as Hinv.
    destruct (FileLog.find_unique 5 (FileLog.urls s) (FileLog.r s)) as [[id|] r'].
    + destruct Hinv as (_ & k & Hk & Hr & _). exists (S k). split; [lia|].
      destruct (FileLog.aopen_err io); [|destruct (FileLog.write_err io) as [[n e]|]];
        rewrite Hc; exact Hr.
    + destruct Hinv as (Hr & _). exists 5%nat. split; [lia|]. rewrite Hc. exact Hr.
  - intros io T s fs Hall. pose proof (filelog_Save_cases io T s fs) as Hc.
    pose proof (find_unique_inv 5 (FileLog.urls s) (FileLog.r s)) as Hinv.
    destruct (FileLog.find_unique 5 (FileLog.urls s) (FileLog.r s)) as [[id|] r'].
    + destruct Hinv as (Hnone & k & _ & _ & Hcand & _).
      rewrite Forall_lookup in Hall. specialize (Hall k id Hcand).
      rewrite Hnone in Hall. by destruct Hall.
    + destruct Hinv as (-> & _). exact Hc.
Qed.

Lemma save_retry_bound_exhaustion_witness :
  Memory.Save "https://go.dev/blog" taken_memory
    = (Err Memory.ErrExhausted,
       Memory.mkStorage (Memory.urls taken_memory)
         (ShortID.skip (ShortID.shortIDLength * 5) (Memory.r taken_memory))) /\
  FileLog.Save FileLog.append_ok "https://go.dev/blog" taken_filelog ∅
    = (Err FileLog.ErrExhausted,
       FileLog.mkStorage (FileLog.urls taken_filelog)
         (ShortID.skip (ShortID.shortIDLength * 5) (FileLog.r taken_filelog))
         (FileLog.filePath taken_filelog),
       ∅, []).
Proof.
  destruct save_retry_bound_exhaustion as (_ & Hmem & _ & Hfile). split.
  - apply Hmem. vm_compute. repeat constructor; eexists; reflexivity.
  - apply Hfile. vm_compute. repeat constructor; eexists; reflexivity.
Defined.

(** C6, as the spec states it, fails: with a storage file that cannot be
    opened, loadFromFile reports the error, and NewStorage still returns a
    store and no error. *)
Lemma filelog_NewStorage_swallows_open_failure :
  (FileLog.loadFromFile no_permission empty_filelog ∅).1.1.1
    = Some (FileLog.ErrOpenStorage (FileLog.OsError "permission denied")) /\
  (FileLog.NewStorage cyclic6 "urls.tsv" no_permission ∅).1.1 = Ok empty_filelog /\
  ~ (exists e, (FileLog.NewStorage cyclic6 "urls.tsv" no_permission ∅).1.1 = Err e).
Proof.
  split; [reflexivity|]. split; [reflexivity|].
  intros [e He]. discriminate He.
Qed.

(** C6, amended: NewStorage never returns an error.  When loadFromFile
    fails (the file cannot be opened, a read fails, or a line does not fit
    the scanner), NewStorage logs a warning that carries the error as its
    last log line and returns an empty store for the same path. *)
Theorem filelog_NewStorage_never_fails (draws : nat -> Z) (path : string)
    (io : FileLog.load_io) (fs : gmap string string) :
  exists s fs' log,
    FileLog.NewStorage draws path io fs = (Ok s, fs', log) /\
    FileLog.filePath s = path /\
    forall e,
      (FileLog.loadFromFile io
         (FileLog.mkStorage ∅ (ShortID.newRand draws) path) fs).1.1.1 = Some e ->
      FileLog.urls s = ∅ /\ last log = Some (FileLog.LogLoadWarning path e).
Proof.
  unfold FileLog.NewStorage.
  assert (FileLog.filePath
            (FileLog.loadFromFile io
               (FileLog.mkStorage ∅ (ShortID.newRand draws) path) fs).1.1.2 = path)
    as Hpath.
  { unfold FileLog.loadFromFile. destruct (FileLog.open_err io); [reflexivity|].
    cbv zeta. destruct (FileLog.scan _) as [lines tooLong].
    destruct (FileLog.replay _ lines) as [[m0 n0] log0].
    destruct tooLong; [reflexivity|]. destruct (FileLog.read_err io) as [[k e]|]; reflexivity. }
  destruct (FileLog.loadFromFile io (FileLog.mkStorage ∅ (ShortID.newRand draws) path) fs)
    as [[[err s1] fs1] log1]. cbn [fst snd] in *.
  destruct err as [e|].
  - eexists _, _, _. split; [reflexivity|]. cbn [FileLog.filePath FileLog.urls].
    split; [exact Hpath|]. intros e' [= <-]. split; [reflexivity|].
    apply last_snoc.
  - eexists _, _, _. split; [reflexivity|]. split; [exact Hpath|]. discriminate.
Qed.

Lemma filelog_NewStorage_never_fails_witness :
  exists s fs' log,
    FileLog.NewStorage cyclic6 "urls.tsv" no_permission ∅ = (Ok s, fs', log) /\
    FileLog.urls s = ∅ /\
    last log = Some (FileLog.LogLoadWarning "urls.tsv"
                       (FileLog.ErrOpenStorage (FileLog.OsError "permission denied"))).
Proof.
  destruct (filelog_NewStorage_never_fails cyclic6 "urls.tsv" no_permission ∅)
    as (s & fs' & log & HN & _ & Hfail).
  exists s, fs', log. split; [exact HN|]. apply Hfail. reflexivity.
Defined.

(** C7 (not-found iff absent): Load returns the stored target exactly when
    the identifier is a key of the map and the not-found error exactly when
    it is not; it leaves the store as it is; and after any run of Saves on
    a store, an identifier that was not a key at the start and that no
    successful Save returned is reported not-found.  Memory and FileLog. *)
Theorem load_found_iff_key :
  (forall id s, snd (Memory.Load id s) = s) /\
  (forall id s t, fst (Memory.Load id s) = Ok t <-> Memory.urls s !! id = Some t) /\
  (forall id s, fst (Memory.Load id s) = Err (Memory.ErrNotFound id)
                <-> Memory.urls s !! id = None) /\
  (forall draws targets out s id,
     Memory.Save_all targets (Memory.NewStorage draws) = (out, s) ->
     (forall t, ~ In (t, Ok id) out) ->
     fst (Memory.Load id s) = Err (Memory.ErrNotFound id)) /\
  (forall id s, snd (FileLog.Load id s) = s) /\
  (forall id s t, fst (FileLog.Load id s) = Ok t <-> FileLog.urls s !! id = Some t) /\
  (forall id s, fst (FileLog.Load id s) = Err (FileLog.ErrNotFound id)
                <-> FileLog.urls s !! id = None) /\
  (forall s0 fs0 reqs out s fs id,
     FileLog.urls s0 !! id = None ->
     FileLog.Save_all reqs s0 fs0 = (out, s, fs) ->
     (forall t, ~ In (t, Ok id) out) ->
     fst (FileLog.Load id s) = Err (FileLog.ErrNotFound id)).
Proof.
  assert (forall id s, Memory.urls s !! id = None ->
            fst (Memory.Load id s) = Err (Memory.ErrNotFound id)) as HM.
  { intros id s H. unfold Memory.Load. by rewrite H. }
  assert (forall id s, FileLog.urls s !! id = None ->
            fst (FileLog.Load id s) = Err (FileLog.ErrNotFound id)) as HF.
  { intros id s H. unfold FileLog.Load. by rewrite H. }
  repeat apply conj.
  - intros id s. unfold Memory.Load. by destruct (Memory.urls s !! id).
  - intros id s t. unfold Memory.Load. destruct (Memory.urls s !! id); cbn [fst];
      split; congruence.
  - intros id s. unfold Memory.Load. destruct (Memory.urls s !! id); cbn [fst];
      split; congruence.
  - intros draws targets out s id HS Hnever. apply HM.
    destruct (Memory.urls s !! id) as [t|] eqn:E; [|reflexivity].
    apply (memory_Save_all_lookup _ _ _ _ HS) in E as [E|E].
    + cbn in E. by rewrite lookup_empty in E.
    + destruct (Hnever t E).
  - intros id s. unfold FileLog.Load. by destruct (FileLog.urls s !! id).
  - intros id s t. unfold FileLog.Load. destruct (FileLog.urls s !! id); cbn [fst];
      split; congruence.
  - intros id s. unfold FileLog.Load. destruct (FileLog.urls s !! id); cbn [fst];
      split; congruence.
  - intros s0 fs0 reqs out s fs id H0 HS Hnever. apply HF.
    destruct (FileLog.urls s !! id) as [t|] eqn:E; [|reflexivity].
    destruct (filelog_Save_all_inv _ _ _ _ _ _ HS) as (_ & Hlook & _).
    apply Hlook in E as [E|E]; [congruence|destruct (Hnever t E)].
Qed.

Lemma load_found_iff_key_witness :
  fst (Memory.Load "doesnotexist"
         (snd (Memory.Save_all ["https://go.dev"; "https://go.dev/doc"]
                 (Memory.NewStorage counting))))
    = Err (Memory.ErrNotFound "doesnotexist") /\
  fst (FileLog.Load "doesnotexist"
         (FileLog.Save_all [("https://go.dev", FileLog.append_ok);
                            ("https://go.dev/doc", disk_full)]
            empty_filelog ∅).1.2)
    = Err (FileLog.ErrNotFound "doesnotexist").
Proof.
  destruct load_found_iff_key as (_ & _ & _ & Hmem & _ & _ & _ & Hfile). split.
  - eapply (Hmem counting ["https://go.dev"; "https://go.dev/doc"]).
    + vm_compute. reflexivity.
    + intros t. vm_compute. intros [H|[H|[]]]; discriminate H.
  - eapply (Hfile empty_filelog ∅
              [("https://go.dev", FileLog.append_ok); ("https://go.dev/doc", disk_full)]).
    + reflexivity.
    + vm_compute. reflexivity.
    + intros t. vm_compute. intros [H|[H|[]]]; discriminate H.
Defined.

(** C8, as the spec states it, fails: a target of two lines is saved, the
    store is rebuilt over the same file, and Load returns the first line
    only. *)
Lemma filelog_reload_loses_newline_target :
  let saved :=
    FileLog.mkStorage {["abcdef" := two_line_target]} (ShortID.mkRand cyclic6 6) "urls.tsv" in
  let saved_fs : gmap string string :=
    {["urls.tsv" := FileLog.record_line "abcdef" two_line_target
                    ++ String FileLog.newline EmptyString]} in
  let reloaded :=
    FileLog.mkStorage {["abcdef" := "https://go.dev/a"]} (ShortID.newRand cyclic6)
      "urls.tsv" in
  FileLog.NewStorage cyclic6 "urls.tsv" FileLog.io_ok ∅
    = (Ok empty_filelog, {["urls.tsv" := EmptyString]}, [FileLog.LogLoaded 0 "urls.tsv"]) /\
  FileLog.Save_all [(two_line_target, FileLog.append_ok)] empty_filelog {["urls.tsv" := EmptyString]}
    = ([(two_line_target, Ok "abcdef")], saved, saved_fs) /\
  FileLog.NewStorage cyclic6 "urls.tsv" FileLog.io_ok saved_fs
    = (Ok reloaded, saved_fs,
       [FileLog.LogSkipMalformed "urls.tsv" "b"; FileLog.LogLoaded 1 "urls.tsv"]) /\
  FileLog.Load "abcdef" reloaded = (Ok "https://go.dev/a", reloaded) /\
  "https://go.dev/a" <> two_line_target.
Proof.
  cbv zeta.
  split; [vm_compute; reflexivity|].
  split; [vm_compute; reflexivity|].
  split; [vm_compute; reflexivity|].
  split; [vm_compute; reflexivity|].
  vm_compute. discriminate.
Qed.

(** C8, amended (reload): let the store be built by NewStorage over a file
    that is absent, empty, or ends in a newline and has no line beyond the
    scanner's buffer.  After any run of Saves whose targets are storable
    (no newline, no trailing carriage return, record within the buffer),
    some of which may fail to append provided the failing call wrote no
    byte, a store rebuilt over the same file holds exactly the map of the
    old one, so Load returns the original target for every identifier a
    Save returned. *)
Theorem filelog_reload_returns_targets (draws0 draws1 : nat -> Z) (path : string)
    (fs0 fs fs' : gmap string string) (s s' : FileLog.Storage)
    (log : list FileLog.LogEntry) (reqs : list (string * FileLog.append_io))
    (out : list (string * result FileLog.error string)) :
  FileLog.terminated (FileLog.read_file fs0 path) ->
  snd (FileLog.scan (FileLog.read_file fs0 path)) = None ->
  FileLog.NewStorage draws0 path FileLog.io_ok fs0 = (Ok s, fs, log) ->
  Forall (fun q => FileLog.storable q.1) reqs ->
  Forall (fun q => FileLog.writes_whole_or_nothing q.2) reqs ->
  FileLog.Save_all reqs s fs = (out, s', fs') ->
  exists s2 fs2 log2,
    FileLog.NewStorage draws1 path FileLog.io_ok fs' = (Ok s2, fs2, log2) /\
    FileLog.urls s2 = FileLog.urls s' /\
    forall t id, In (t, Ok id) out -> FileLog.Load id s2 = (Ok t, s2).
Proof.
  intros Hterm Hscan HN Hreqs Hios HS.
  destruct (NewStorage_agrees _ _ _ _ _ _ Hscan HN) as (Hpath & Hread & Hagree).
  destruct (filelog_Save_all_inv _ _ _ _ _ _ HS) as (Hpath' & Hlook & Hsync).
  rewrite <- Hread, <- Hpath in Hterm.
  destruct (Hsync Hreqs Hios Hterm Hagree) as [_ Hagree'].
  unfold FileLog.agrees in Hagree'. rewrite Hpath', Hpath in Hagree'.
  destruct (NewStorage_ok draws1 path fs' _ Hagree') as [log2 HN2].
  eexists _, _, _. split; [exact HN2|]. cbn [FileLog.urls]. split; [reflexivity|].
  intros t id Hin. unfold FileLog.Load. cbn [FileLog.urls].
  assert (FileLog.urls s' !! id = Some t) as -> by (apply Hlook; by right).
  reflexivity.
Qed.

Lemma filelog_reload_returns_targets_witness :
  exists s2 fs2 log2,
    FileLog.NewStorage cyclic6 "urls.tsv" FileLog.io_ok
      (FileLog.Save_all three_requests first_run first_run_fs).2 = (Ok s2, fs2, log2) /\
    FileLog.Load "abcdef" s2 = (Ok "https://go.dev", s2) /\
    FileLog.Load "mnopqr" s2 = (Ok "https://go.dev/blog", s2) /\
    FileLog.Load "ghijkl" s2 = (Err (FileLog.ErrNotFound "ghijkl"), s2).
Proof.
  destruct (filelog_reload_returns_targets counting cyclic6 "urls.tsv" ∅ first_run_fs
              (FileLog.Save_all three_requests first_run first_run_fs).2
              first_run
              (FileLog.Save_all three_requests first_run first_run_fs).1.2
              [FileLog.LogLoaded 0 "urls.tsv"] three_requests
              (FileLog.Save_all three_requests first_run first_run_fs).1.1)
    as (s2 & fs2 & log2 & HN & Hurls & Hload).
  - left. reflexivity.
  - vm_compute. reflexivity.
  - vm_compute. reflexivity.
  - repeat constructor; vm_compute; reflexivity.
  - repeat constructor.
  - vm_compute. reflexivity.
  - exists s2, fs2, log2. split; [exact HN|]. split; [|split].
    + apply Hload. vm_compute. left. reflexivity.
    + apply Hload. vm_compute. right. right. left. reflexivity.
    + unfold FileLog.Load. rewrite Hurls. vm_compute. reflexivity.
Defined.

(** C9, as the spec states it, fails: a line with three tab-separated
    fields is not exactly two fields, yet it is loaded, with everything
    after the first tab as the target, and no diagnostic is written, not
    for it and not for the empty line before it. *)
Lemma filelog_three_field_line_is_loaded :
  FileLog.loadFromFile FileLog.io_ok empty_filelog {["urls.tsv" := three_field_file]}
    = (None,
       FileLog.mkStorage {["abcdef" := "https://go.dev" ++ String FileLog.tab "extra"]}
         (ShortID.newRand cyclic6) "urls.tsv",
       {["urls.tsv" := three_field_file]}, []).
Proof. vm_compute. reflexivity. Qed.

(** C9, amended (reload parsing): when the scanner reads the file to its
    end, loadFromFile returns no error whatever the lines are; an
    identifier maps to a target exactly when some line is that identifier,
    a tab and that target (the target may hold further tabs) and no later
    line starts with the identifier and a tab (last write wins); and the
    diagnostics are, in order, one per line that is not empty and has no
    tab.  Empty lines are skipped without a diagnostic. *)
Theorem filelog_reload_parsing (s : FileLog.Storage) (fs : gmap string string)
    (lines : list string) :
  FileLog.scan (FileLog.read_file fs (FileLog.filePath s)) = (lines, None) ->
  exists s' log,
    FileLog.loadFromFile FileLog.io_ok s fs
      = (None, s',
         <[FileLog.filePath s := FileLog.read_file fs (FileLog.filePath s)]> fs, log) /\
    (forall id t,
       FileLog.urls s' !! id = Some t <->
       exists pre post,
         lines = (pre ++ FileLog.record_line id t :: post)%list /\
         FileLog.has_byte FileLog.tab id = false /\
         Forall (fun l => forall t', l <> FileLog.record_line id t') post) /\
    log = map (FileLog.LogSkipMalformed (FileLog.filePath s))
              (List.filter FileLog.malformed lines).
Proof.
  intros Hscan. unfold FileLog.loadFromFile.
  cbn [FileLog.open_err FileLog.read_err FileLog.io_ok]. rewrite Hscan.
  pose proof (replay_lookup (FileLog.filePath s) lines) as Hlook.
  pose proof (replay_log (FileLog.filePath s) lines) as Hlog.
  destruct (FileLog.replay (FileLog.filePath s) lines) as [[m n] log].
  cbn [fst snd] in *. eexists _, _. split; [reflexivity|].
  cbn [FileLog.urls]. split; [exact Hlook|exact Hlog].
Qed.

Lemma filelog_reload_parsing_witness :
  exists s' log,
    FileLog.loadFromFile FileLog.io_ok empty_filelog {["urls.tsv" := three_field_file]}
      = (None, s', <["urls.tsv" := three_field_file]> {["urls.tsv" := three_field_file]},
         log) /\
    FileLog.urls s' !! "abcdef" = Some ("https://go.dev" ++ String FileLog.tab "extra") /\
    log = [].
Proof.
  destruct (filelog_reload_parsing empty_filelog {["urls.tsv" := three_field_file]}
              [EmptyString; FileLog.record_line "abcdef"
                     ("https://go.dev" ++ String FileLog.tab "extra")])
    as (s' & log & Hload & Hlook & Hlog).
  - vm_compute. reflexivity.
  - exists s', log. split; [exact Hload|]. split; [|exact Hlog].
    apply Hlook. exists [EmptyString], []. split; [reflexivity|]. split; [reflexivity|constructor].
Defined.

(** C10, as stated, fails: a target that ends in a carriage return holds
    no newline, yet the record written for it reads back without the
    carriage return. *)
Lemma filelog_trailing_cr_lost :
  let fs' : gmap string string :=
    {["urls.tsv" := FileLog.record_line "abcdef" cr_target ++ String FileLog.newline EmptyString]} in
  FileLog.has_byte FileLog.newline cr_target = false /\
  FileLog.over_charset "abcdef" = true /\
  FileLog.appendToFile FileLog.append_ok empty_filelog "abcdef" cr_target ∅
    = (None, fs') /\
  FileLog.loadFromFile FileLog.io_ok empty_filelog fs'
    = (None,
       FileLog.mkStorage {["abcdef" := "https://go.dev"]} (ShortID.newRand cyclic6)
         "urls.tsv",
       fs', []) /\
  "https://go.dev" <> cr_target.
Proof.
  cbv zeta.
  split; [reflexivity|]. split; [reflexivity|].
  split; [vm_compute; reflexivity|].
  split; [vm_compute; reflexivity|].
  vm_compute. discriminate.
Qed.

(** C10, amended (record round trip): append the record of identifier [id]
    over the alphabet and target [t] to a file that is empty or ends in a
    newline and that the scanner reads to its end.  A reload then succeeds
    and maps [id] to [t] if and only if [t] holds no newline, does not end
    in a carriage return, and the record (identifier, tab, target) is
    shorter than the scanner's 64 KiB buffer.  Tabs inside [t] are kept. *)
Theorem filelog_record_roundtrip_iff (s s1 : FileLog.Storage)
    (fs fs' : gmap string string) (id t : string) :
  FileLog.filePath s1 = FileLog.filePath s ->
  FileLog.terminated (FileLog.read_file fs (FileLog.filePath s)) ->
  snd (FileLog.scan (FileLog.read_file fs (FileLog.filePath s))) = None ->
  FileLog.over_charset id = true ->
  FileLog.appendToFile FileLog.append_ok s id t fs = (None, fs') ->
  (exists s2 fs2 log,
     FileLog.loadFromFile FileLog.io_ok s1 fs' = (None, s2, fs2, log) /\
     FileLog.urls s2 !! id = Some t)
  <-> FileLog.storable_at (FileLog.slen id) t.
Proof.
  intros Hpath Hterm Hscan Hid Happ.
  unfold FileLog.appendToFile in Happ.
  cbn [FileLog.aopen_err FileLog.write_err FileLog.append_ok] in Happ.
  injection Happ as <-.
  set (path := FileLog.filePath s) in *.
  set (c := FileLog.read_file fs path) in *.
  pose proof (over_charset_no_tab id Hid) as Htab.
  pose proof (over_charset_no_newline id Hid) as Hnl.
  assert (exists m, FileLog.log_index path fs = Some m) as [m Hm].
  { unfold FileLog.log_index. fold c. destruct (FileLog.scan c) as [ls e].
    cbn [snd] in Hscan. subst e. eauto. }
  set (fs' := <[path := c ++ FileLog.record_line id t ++ String FileLog.newline EmptyString]> fs).
  assert (FileLog.read_file fs' path
          = c ++ FileLog.record_line id t ++ String FileLog.newline EmptyString) as Hread
    by apply read_file_insert.
  split.
  - intros (s2 & fs2 & log & Hload & Hlook).
    apply loadFromFile_ok_inv in Hload as [Hidx _]. rewrite Hpath in Hidx.
    pose proof (log_index_values_free _ _ _ Hidx id t Hlook) as Hfree.
    cbn beta in Hfree.
    assert (FileLog.has_byte FileLog.newline (FileLog.record_line id t) = false) as Hline.
    { unfold FileLog.record_line. rewrite has_byte_app. cbn [FileLog.has_byte].
      rewrite Hnl, Hfree. reflexivity. }
    unfold FileLog.log_index in Hidx. rewrite Hread in Hidx.
    rewrite (scan_append_line _ _ Hterm Hline) in Hidx.
    destruct (FileLog.scan c) as [ls e]. cbn [snd] in Hscan. subst e.
    assert (FileLog.slen (FileLog.record_line id t)
            = FileLog.slen id + 1 + FileLog.slen t) as Hlen.
    { unfold FileLog.record_line. rewrite slen_app, slen_String. lia. }
    destruct (FileLog.maxScanTokenSize <=? FileLog.slen (FileLog.record_line id t))
      eqn:Hmax; [discriminate|].
    split; [exact Hfree|]. split; [|lia].
    injection Hidx as Hurls. rewrite <- Hurls in Hlook.
    rewrite replay_snoc, dropCR_record in Hlook.
    destruct (FileLog.replay path ls) as [[m0 n0] log0].
    rewrite (load_line_record path m0 n0 log0 id _ Htab) in Hlook.
    cbn [fst] in Hlook. rewrite lookup_insert_eq in Hlook. injection Hlook as Hdrop.
    destruct (FileLog.ends_with FileLog.cr t) eqn:Hcr; [|reflexivity].
    apply dropCR_shorter in Hcr. rewrite Hdrop in Hcr. lia.
  - intros Hst.
    pose proof (log_index_append path fs fs' id t m Hterm Hm Htab Hnl Hst Hread) as Hidx.
    rewrite <- Hpath in Hidx.
    destruct (loadFromFile_ok s1 fs' _ Hidx) as [log Hload].
    eexists _, _, _. split; [exact Hload|]. cbn [FileLog.urls]. apply lookup_insert_eq.
Qed.

Lemma filelog_record_roundtrip_iff_witness :
  exists s2 fs2 log,
    FileLog.loadFromFile FileLog.io_ok empty_filelog
      (FileLog.appendToFile FileLog.append_ok first_run "abcdef" tab_target first_run_fs).2
      = (None, s2, fs2, log) /\
    FileLog.urls s2 !! "abcdef" = Some tab_target.
Proof.
  apply (filelog_record_roundtrip_iff first_run empty_filelog first_run_fs
           (FileLog.appendToFile FileLog.append_ok first_run "abcdef" tab_target
              first_run_fs).2 "abcdef" tab_target).
  - reflexivity.
  - left. reflexivity.
  - vm_compute. reflexivity.
  - reflexivity.
  - vm_compute. reflexivity.
  - repeat split; vm_compute; reflexivity.
Defined.

(** C5 (Relational, error classification): in Save's retry loop an error
    that is a PgError with code 23505 makes the loop draw a fresh candidate
    and try again, and any other error ends the Save at once with that
    error, no statement being executed after it; Save reports exhaustion
    exactly when all five attempts met a unique violation. *)
Theorem relational_save_error_classification :
  (forall T s k, (k < 5)%nat ->
     (forall i, (i < k)%nat -> Relational.collides i T s) ->
     (Relational.attempt k T s).2 = None ->
     Relational.Save T s
       = (Ok (Relational.attempt k T s).1,
          Relational.mkStorage
            (Relational.mkDB
               (<[(Relational.attempt k T s).1 := T]> (Relational.rows (Relational.db s)))
               (Relational.faults (Relational.db s))
               (Relational.calls (Relational.db s) + S k))
            (ShortID.skip (ShortID.shortIDLength * S k) (Relational.r s)),
          map Relational.LogCollision (ShortID.candidates k (Relational.r s)))) /\
  (forall T s k e, (k < 5)%nat ->
     (forall i, (i < k)%nat -> Relational.collides i T s) ->
     (Relational.attempt k T s).2 = Some e ->
     Relational.is_unique_violation e = false ->
     Relational.Save T s
       = (Err (Relational.ErrSave e), Relational.after (S k) s,
          (map Relational.LogCollision (ShortID.candidates k (Relational.r s))
             ++ [Relational.LogSaveError e])%list)) /\
  (forall T s,
     (forall i, (i < 5)%nat -> Relational.collides i T s) ->
     Relational.Save T s
       = (Err Relational.ErrExhausted, Relational.after 5 s,
          map Relational.LogCollision (ShortID.candidates 5 (Relational.r s)))) /\
  (forall T s,
     (Relational.Save T s).1.1 = Err Relational.ErrExhausted ->
     forall i, (i < 5)%nat -> Relational.collides i T s).
Proof.
  assert (forall T s k, (k < 5)%nat ->
            (forall i, (i < k)%nat -> Relational.collides i T s) ->
            match (Relational.attempt k T s).2 with
            | None => True
            | Some e => Relational.is_unique_violation e = false
            end ->
            (Relational.Save T s).1.1 <> Err Relational.ErrExhausted) as Hstop.
  { intros T s k Hk Hcol Hat. unfold Relational.Save.
    replace 5%nat with (k + S (4 - k))%nat by lia.
    rewrite (relational_Save_at k (4 - k) T s Hcol).
    destruct (Relational.attempt k T s).2 as [e|]; [|discriminate].
    rewrite Hat. discriminate. }
  split; [|split; [|split]].
  - intros T s k Hk Hcol Hat. unfold Relational.Save.
    replace 5%nat with (k + S (4 - k))%nat by lia.
    rewrite (relational_Save_at k (4 - k) T s Hcol), Hat. reflexivity.
  - intros T s k e Hk Hcol Hat Hu. unfold Relational.Save.
    replace 5%nat with (k + S (4 - k))%nat by lia.
    rewrite (relational_Save_at k (4 - k) T s Hcol), Hat, Hu. reflexivity.
  - intros T s Hcol. unfold Relational.Save.
    pose proof (relational_Save_loop_collisions 5 0 T s Hcol) as H.
    change (5 + 0)%nat with 5%nat in H. rewrite H.
    cbn [Relational.Save_loop]. rewrite app_nil_r. reflexivity.
  - intros T s Hex.
    destruct (first_non_collision 5 T s) as [Hall|(k & Hk & Hcol & Hat)]; [exact Hall|].
    destruct (Hstop T s k Hk Hcol Hat Hex).
Qed.

Lemma relational_save_error_classification_witness :
  Relational.Save "https://go.dev" (relational_store two_collisions)
    = (Ok "mnopqr",
       Relational.mkStorage
         (Relational.mkDB (<["mnopqr" := "https://go.dev"]> ∅) two_collisions 3)
         (ShortID.skip 18 (ShortID.newRand counting)),
       [Relational.LogCollision "abcdef"; Relational.LogCollision "ghijkl"]) /\
  Relational.Save "https://go.dev" (relational_store fk_then_down)
    = (Err (Relational.ErrSave (Relational.PgError "23503")),
       Relational.after 1 (relational_store fk_then_down),
       [Relational.LogSaveError (Relational.PgError "23503")]) /\
  Relational.Save "https://go.dev" (relational_store always_collides)
    = (Err Relational.ErrExhausted,
       Relational.after 5 (relational_store always_collides),
       map Relational.LogCollision
         ["abcdef"; "ghijkl"; "mnopqr"; "stuvwx"; "yzABCD"]).
Proof.
  destruct relational_save_error_classification as (Hretry & Habort & Hbudget & _).
  split; [|split].
  - apply (Hretry "https://go.dev" (relational_store two_collisions) 2%nat).
    + lia.
    + intros i Hi. exists (Relational.PgError "23505").
      destruct i as [|[|i]]; [split; reflexivity|split; reflexivity|lia].
    + reflexivity.
  - apply (Habort "https://go.dev" (relational_store fk_then_down) 0%nat).
    + lia.
    + intros i Hi. lia.
    + reflexivity.
    + reflexivity.
  - apply (Hbudget "https://go.dev" (relational_store always_collides)).
    intros i Hi. exists (Relational.PgError "23505"). split; reflexivity.
Defined.

(** ** Memory backend, concurrent callers *)

(** One caller after the other never yields the same identifier twice:
    the second Save finds the first identifier in the map. *)
Lemma memory_sequential_saves_distinct (a b : string) (s s1 s2 : Memory.Storage)
    (i1 i2 : string) :
  Memory.Save a s = (Ok i1, s1) -> Memory.Save b s1 = (Ok i2, s2) -> i1 <> i2.
Proof.
  intros H1 H2. apply memory_Save_Ok in H1 as [_ Hu1].
  apply memory_Save_Ok in H2 as [Hn2 _]. intros ->.
  rewrite Hu1, lookup_insert_eq in Hn2. discriminate.
Qed.

(** The same two goroutines, run one after the other on a store whose
    generator repeats itself: the first inserts, the second meets the
    collision five times and reports exhaustion. *)
Example memory_serial_schedule_collides :
  MemoryConc.run (serial_schedule ++ repeat 1%nat 8) (MemoryConc.fresh cyclic6) two_savers
  = Some (MemoryConc.mkShared {["abcdef" := "https://go.dev/a"]}
            (ShortID.mkRand cyclic6 36) 0 false 0,
          [MemoryConc.Done (Ok "abcdef"); MemoryConc.Done (Err Memory.ErrExhausted)]).
Proof. vm_compute. reflexivity. Qed.

(** A goroutine at s.mu.Lock() is kept out while a Save holds the read
    lock, and a Save is kept out while a writer waits. *)
Example memory_lock_excludes_writer :
  MemoryConc.run [0; 1; 1]%nat (MemoryConc.fresh cyclic6)
    [MemoryConc.SaveCall "https://go.dev/a"; MemoryConc.LoadCall "abcdef"] = None /\
  MemoryConc.run [1; 0]%nat (MemoryConc.fresh cyclic6)
    [MemoryConc.SaveCall "https://go.dev/a"; MemoryConc.LoadCall "abcdef"] = None.
Proof. split; vm_compute; reflexivity. Qed.

(** C1 (atomic check and insert) fails on the code: Save takes the read
    lock, which two goroutines hold together.  Interleaved statement by
    statement on a fresh store whose generator yields the same candidate
    twice, both goroutines find the candidate absent, both insert, and both
    return it; the target of the first is overwritten. *)
Theorem concurrent_saves_share_id :
  MemoryConc.run race_schedule (MemoryConc.fresh cyclic6) two_savers
  = Some (MemoryConc.mkShared {["abcdef" := "https://go.dev/b"]}
            (ShortID.mkRand cyclic6 12) 0 false 0,
          [MemoryConc.Done (Ok "abcdef"); MemoryConc.Done (Ok "abcdef")]).
Proof. vm_compute. reflexivity. Qed.

(** * Further properties *)

(** ** The identifier generator *)

Section GeneratorMore.
Import ShortID ShortIDSpec FileLog.

Lemma get_lookup (n : nat) (s : string) :
  String.get n s = list_ascii_of_string s !! n.
Proof.
  revert n. induction s as [|c s IH]; intros [|n]; cbn; try reflexivity. apply IH.
Qed.

Lemma charset_NoDup : NoDup (list_ascii_of_string charset).
Proof.
  apply (bool_decide_unpack (NoDup (list_ascii_of_string charset))).
  vm_compute. reflexivity.
Qed.

Lemma charset_at_get (k : Z) :
  (Z.to_nat k < String.length charset)%nat ->
  String.get (Z.to_nat k) charset = Some (charset_at k).
Proof.
  intros Hk. unfold charset_at.
  destruct (String.get (Z.to_nat k) charset) as [c|] eqn:E; [reflexivity|].
  rewrite get_lookup in E. apply lookup_ge_None in E.
  assert (length (list_ascii_of_string charset) = String.length charset) as Hl
    by reflexivity.
  lia.
Qed.

Lemma charset_at_inj (a b : Z) :
  0 <= a < 62 -> 0 <= b < 62 -> charset_at a = charset_at b -> a = b.
Proof.
  intros Ha Hb Heq.
  assert (String.length charset = 62%nat) as Hlen by reflexivity.
  pose proof (charset_at_get a ltac:(lia)) as Ga.
  pose proof (charset_at_get b ltac:(lia)) as Gb.
  rewrite get_lookup in Ga, Gb. rewrite Heq in Ga.
  pose proof (NoDup_lookup _ _ _ _ charset_NoDup Ga Gb). lia.
Qed.

Lemma index_of_get (c : ascii) (s : string) :
  has_byte c s = true ->
  (index_of c s < String.length s)%nat /\ String.get (index_of c s) s = Some c.
Proof.
  induction s as [|x s IH]; cbn [has_byte index_of String.length]; [discriminate|].
  destruct (Ascii.eqb x c) eqn:E; cbn [orb].
  - intros _. apply Ascii.eqb_eq in E as ->. split; [lia|reflexivity].
  - intros H. destruct (IH H) as [Hlt Hget]. split; [lia|exact Hget].
Qed.

Lemma charset_at_index (c : ascii) :
  has_byte c charset = true ->
  charset_at (Z.of_nat (index_of c charset) mod 62) = c.
Proof.
  intros H. destruct (index_of_get c charset H) as [Hlt Hget].
  assert (String.length charset = 62%nat) as Hlen by reflexivity.
  rewrite Z.mod_small by lia. unfold charset_at. by rewrite Nat2Z.id, Hget.
Qed.

Lemma get_app_length (pre : string) (c : ascii) (suf : string) :
  String.get (String.length pre) (pre ++ String c suf) = Some c.
Proof. induction pre as [|x pre IH]; [reflexivity|]. rewrite app_String. exact IH. Qed.

Lemma fill_spells (suf : string) :
  forall (w pre : string) (p : nat),
  w = pre ++ suf -> p = String.length pre -> over_charset suf = true ->
  fst (fill (String.length suf) (mkRand (draws_for w) p)) = suf.
Proof.
  induction suf as [|c suf IH]; intros w pre p Hw Hp Hover; [reflexivity|].
  cbn [over_charset] in Hover. apply andb_true_iff in Hover as [Hc Hover].
  cbn [String.length fill]. unfold Intn. cbn [src pos].
  specialize (IH w (pre ++ String c EmptyString) (S p)).
  destruct (fill (String.length suf) (mkRand (draws_for w) (S p))) as [rest r2].
  cbn [fst] in *. f_equal.
  - change (Z.of_nat (String.length charset)) with 62.
    unfold draws_for. subst w p. rewrite get_app_length. by apply charset_at_index.
  - apply IH; [|..|exact Hover].
    + subst w. by rewrite string_app_assoc.
    + subst p. clear. induction pre as [|x pre IH]; [reflexivity|].
      rewrite app_String. cbn [String.length]. by rewrite <- IH.
Qed.

Lemma fill_determined (n : nat) :
  forall r1 r2 : Rand,
  fst (fill n r1) = fst (fill n r2) <->
  forall i, (i < n)%nat ->
    src r1 (pos r1 + i) mod 62 = src r2 (pos r2 + i) mod 62.
Proof.
  induction n as [|n IH]; intros r1 r2.
  - cbn. split; [intros _ i Hi; lia|reflexivity].
  - cbn [fill]. unfold Intn. change (Z.of_nat (String.length charset)) with 62.
    specialize (IH (mkRand (src r1) (S (pos r1))) (mkRand (src r2) (S (pos r2)))).
    destruct (fill n (mkRand (src r1) (S (pos r1)))) as [rest1 q1].
    destruct (fill n (mkRand (src r2) (S (pos r2)))) as [rest2 q2].
    cbn [fst src pos] in *. destruct IH as [IH1 IH2]. split.
    + intros [= Hc Hrest]. pose proof (IH1 Hrest) as Hdraws. clear Hrest.
      apply charset_at_inj in Hc; [|apply Z.mod_pos_bound; lia..].
      intros [|i] Hi.
      * by rewrite !Nat.add_0_r.
      * rewrite !Nat.add_succ_r. apply Hdraws. lia.
    + intros H. f_equal.
      * f_equal. specialize (H O ltac:(lia)). by rewrite !Nat.add_0_r in H.
      * apply IH2. intros i Hi. specialize (H (S i) ltac:(lia)).
        by rewrite !Nat.add_succ_r in H.
Qed.

End GeneratorMore.

(** X1 (shape of an identifier): generateShortID returns six bytes, each
    one of the 62 of the alphabet, so none is a tab, a newline or a
    carriage return; it consumes exactly six draws of the source. *)
Theorem generateShortID_shape (rnd : ShortID.Rand) :
  String.length (fst (ShortID.generateShortID rnd)) = 6%nat /\
  FileLog.over_charset (fst (ShortID.generateShortID rnd)) = true /\
  FileLog.has_byte FileLog.tab (fst (ShortID.generateShortID rnd)) = false /\
  FileLog.has_byte FileLog.newline (fst (ShortID.generateShortID rnd)) = false /\
  FileLog.has_byte FileLog.cr (fst (ShortID.generateShortID rnd)) = false /\
  snd (ShortID.generateShortID rnd) = ShortID.mkRand (ShortID.src rnd) (ShortID.pos rnd + 6).
Proof.
  pose proof (generateShortID_over_charset rnd) as Hover.
  split; [apply generateShortID_length|]. split; [exact Hover|].
  split; [by apply over_charset_no_tab|].
  split; [by apply over_charset_no_newline|].
  split; [apply over_charset_lacks; [reflexivity|exact Hover]|].
  apply generateShortID_skip.
Qed.

(** X2 (the identifier is the six draws modulo 62): two sources yield the
    same identifier exactly when their next six draws agree modulo 62; the
    alphabet has no repeated byte. *)
Theorem generateShortID_determined (r1 r2 : ShortID.Rand) :
  fst (ShortID.generateShortID r1) = fst (ShortID.generateShortID r2) <->
  forall i, (i < 6)%nat ->
    ShortID.src r1 (ShortID.pos r1 + i) mod 62
    = ShortID.src r2 (ShortID.pos r2 + i) mod 62.
Proof. apply fill_determined. Qed.

(** X3 (every word is reachable): for every word of six bytes over the
    alphabet there is a source, the positions of its bytes in the alphabet,
    from which generateShortID returns that word. *)
Theorem generateShortID_spells (w : string) :
  String.length w = 6%nat -> FileLog.over_charset w = true ->
  fst (ShortID.generateShortID (ShortID.newRand (ShortIDSpec.draws_for w))) = w.
Proof.
  intros Hlen Hover. unfold ShortID.generateShortID, ShortID.shortIDLength, ShortID.newRand.
  rewrite <- Hlen. by apply (fill_spells w w EmptyString 0).
Qed.

Lemma generateShortID_spells_witness :
  fst (ShortID.generateShortID (ShortID.newRand (ShortIDSpec.draws_for "Gopher"))) = "Gopher".
Proof. apply generateShortID_spells; reflexivity. Defined.

(** ** Memory backend *)

Section MemoryMore.
Import ShortID Memory.

Lemma memory_Save_id_shape (T : string) (s s' : Storage) (id : string) :
  Save T s = (Ok id, s') ->
  FileLog.over_charset id = true /\ String.length id = shortIDLength.
Proof.
  intros H. pose proof (memory_Save_loop_inv 5 T s) as Hinv.
  unfold Save in H. rewrite H in Hinv.
  destruct Hinv as (_ & _ & k & _ & _ & Hcand & _).
  pose proof (candidates_over_charset 5 (r s)) as Hall.
  rewrite Forall_lookup in Hall. exact (Hall k id Hcand).
Qed.

Lemma memory_Save_all_mono (targets : list string) :
  forall s out s', Save_all targets s = (out, s') ->
  forall k v, urls s !! k = Some v -> urls s' !! k = Some v.
Proof.
  intros s out s' H k v Hk. apply (memory_Save_all_lookup _ _ _ _ H). by left.
Qed.

(** An identifier a run of Saves returns was not a key before the run. *)
Lemma memory_Save_all_fresh (targets : list string) :
  forall s out s', Save_all targets s = (out, s') ->
  forall t id, In (t, Ok id) out -> urls s !! id = None.
Proof.
  induction targets as [|T ts IH]; intros s out s' H t id Hin.
  - cbn in H. inversion H; subst. destruct Hin.
  - cbn [Save_all] in H. destruct (Save T s) as [res s1] eqn:HS.
    destruct (Save_all ts s1) as [rest s2] eqn:HA.
    inversion H; subst out s'. clear H. destruct Hin as [Heq|Hin].
    + inversion Heq; subst. by apply memory_Save_Ok in HS as [Hnone _].
    + pose proof (IH _ _ _ HA t id Hin) as Hnone1.
      destruct (urls s !! id) as [v|] eqn:E; [|reflexivity].
      pose proof (memory_Save_mono T s id v E) as Hm. rewrite HS in Hm.
      cbn [snd] in Hm. congruence.
Qed.

Lemma memory_Save_all_distinct (targets : list string) :
  forall s out s', Save_all targets s = (out, s') ->
  forall i j t1 t2 id,
    out !! i = Some (t1, Ok id) -> out !! j = Some (t2, Ok id) -> i = j.
Proof.
  induction targets as [|T ts IH]; intros s out s' H i j t1 t2 id Hi Hj.
  - cbn in H. inversion H; subst. by rewrite lookup_nil in Hi.
  - cbn [Save_all] in H. destruct (Save T s) as [res s1] eqn:HS.
    destruct (Save_all ts s1) as [rest s2] eqn:HA.
    inversion H; subst out s'. clear H.
    assert (forall n t, rest !! n = Some (t, Ok id) -> res <> Ok id) as Hclash.
    { intros n t Hn ->. apply memory_Save_Ok in HS as [_ Hurls].
      apply list_elem_of_lookup_2, list_elem_of_In in Hn.
      pose proof (memory_Save_all_fresh _ _ _ _ HA t id Hn) as Hnone.
      rewrite Hurls, lookup_insert_eq in Hnone. discriminate. }
    destruct i as [|i], j as [|j]; cbn in Hi, Hj.
    + reflexivity.
    + injection Hi as _ ->. destruct (Hclash j t2 Hj eq_refl).
    + injection Hj as _ ->. destruct (Hclash i t1 Hi eq_refl).
    + f_equal. exact (IH _ _ _ HA i j t1 t2 id Hi Hj).
Qed.

End MemoryMore.

(** X4 (first free candidate): when the first k of the five candidates are
    keys of the map and candidate k is not, Save returns candidate k, maps
    it to the target, leaves every other key as it is and has consumed
    k+1 identifiers of the source. *)
Theorem memory_Save_first_free (T : string) (s : Memory.Storage) (k : nat) (id : string) :
  (k < 5)%nat ->
  ShortID.candidates 5 (Memory.r s) !! k = Some id ->
  Memory.urls s !! id = None ->
  Forall (fun c => is_Some (Memory.urls s !! c)) (take k (ShortID.candidates 5 (Memory.r s))) ->
  Memory.Save T s
    = (Ok id,
       Memory.mkStorage (<[id := T]> (Memory.urls s))
         (ShortID.skip (ShortID.shortIDLength * S k) (Memory.r s))).
Proof.
  intros Hk Hcand Hfree Htaken.
  pose proof (memory_Save_loop_inv 5 T s) as Hinv. unfold Memory.Save.
  destruct (Memory.Save_loop 5 T s) as [[id'|e] s'].
  - destruct Hinv as (Hnone & Hurls & k' & Hk' & Hr & Hcand' & Htaken').
    assert (k' = k) as ->.
    { destruct (Nat.lt_trichotomy k' k) as [Hlt|[Heq|Hgt]]; [|exact Heq|].
      - rewrite Forall_lookup in Htaken.
        assert (take k (ShortID.candidates 5 (Memory.r s)) !! k' = Some id') as Hin
          by (rewrite lookup_take_lt by lia; exact Hcand').
        specialize (Htaken k' id' Hin). rewrite Hnone in Htaken. by destruct Htaken.
      - rewrite Forall_lookup in Htaken'.
        assert (take k' (ShortID.candidates 5 (Memory.r s)) !! k = Some id) as Hin
          by (rewrite lookup_take_lt by lia; exact Hcand).
        specialize (Htaken' k id Hin). rewrite Hfree in Htaken'. by destruct Htaken'. }
    assert (id' = id) as -> by congruence.
    destruct s' as [m' r']. cbn [Memory.urls Memory.r] in *. by subst.
  - destruct Hinv as (_ & _ & _ & Hall). rewrite Forall_lookup in Hall.
    specialize (Hall k id Hcand). rewrite Hfree in Hall. by destruct Hall.
Qed.

Lemma memory_Save_first_free_witness :
  Memory.Save "https://go.dev/ref"
    (Memory.mkStorage {["abcdef" := "https://go.dev"]} (ShortID.newRand counting))
  = (Ok "ghijkl",
     Memory.mkStorage
       (<["ghijkl" := "https://go.dev/ref"]> {["abcdef" := "https://go.dev"]})
       (ShortID.skip (ShortID.shortIDLength * 2) (ShortID.newRand counting))).
Proof.
  refine (memory_Save_first_free "https://go.dev/ref"
            (Memory.mkStorage {["abcdef" := "https://go.dev"]} (ShortID.newRand counting))
            1 "ghijkl" _ _ _ _).
  - lia.
  - reflexivity.
  - reflexivity.
  - vm_compute. repeat constructor. eexists. reflexivity.
Defined.

(** X5 (one caller at a time, identifiers are unique and lasting): over any
    run of Saves on a Memory store, no identifier is returned twice, every
    returned identifier was absent before the run, is six bytes of the
    alphabet, and still loads its own target at the end; entries present
    before the run are untouched. *)
Theorem memory_saves_unique_and_lasting (targets : list string) (s s' : Memory.Storage)
    (out : list (string * result Memory.error string)) :
  Memory.Save_all targets s = (out, s') ->
  (forall i j t1 t2 id,
     out !! i = Some (t1, Ok id) -> out !! j = Some (t2, Ok id) -> i = j) /\
  (forall t id, In (t, Ok id) out ->
     Memory.urls s !! id = None /\
     String.length id = 6%nat /\ FileLog.over_charset id = true /\
     Memory.Load id s' = (Ok t, s')) /\
  (forall k v, Memory.urls s !! k = Some v -> Memory.Load k s' = (Ok v, s')).
Proof.
  intros H. split; [exact (memory_Save_all_distinct _ _ _ _ H)|]. split.
  - intros t id Hin. split; [exact (memory_Save_all_fresh _ _ _ _ H t id Hin)|].
    assert (Memory.urls s' !! id = Some t) as Hl
      by (apply (memory_Save_all_lookup _ _ _ _ H); by right).
    split; [|split]; [..|unfold Memory.Load; by rewrite Hl].
    + clear Hl. revert s out s' H Hin.
      induction targets as [|T ts IH]; intros s out s' H Hin.
      * cbn in H. inversion H; subst. destruct Hin.
      * cbn [Memory.Save_all] in H. destruct (Memory.Save T s) as [res s1] eqn:HS.
        destruct (Memory.Save_all ts s1) as [rest s2] eqn:HA.
        inversion H; subst out s'. destruct Hin as [Heq|Hin]; [|by eapply IH].
        inversion Heq; subst. by apply memory_Save_id_shape in HS as [_ ?].
    + clear Hl. revert s out s' H Hin.
      induction targets as [|T ts IH]; intros s out s' H Hin.
      * cbn in H. inversion H; subst. destruct Hin.
      * cbn [Memory.Save_all] in H. destruct (Memory.Save T s) as [res s1] eqn:HS.
        destruct (Memory.Save_all ts s1) as [rest s2] eqn:HA.
        inversion H; subst out s'. destruct Hin as [Heq|Hin]; [|by eapply IH].
        inversion Heq; subst. by apply memory_Save_id_shape in HS as [? _].
  - intros k v Hk. unfold Memory.Load.
    by rewrite (memory_Save_all_mono _ _ _ _ H k v Hk).
Qed.

Lemma memory_saves_unique_and_lasting_witness :
  Memory.Load "abcdef"
    (snd (Memory.Save_all ["https://go.dev"; "https://go.dev/doc"]
            (Memory.NewStorage counting)))
  = (Ok "https://go.dev",
     snd (Memory.Save_all ["https://go.dev"; "https://go.dev/doc"]
            (Memory.NewStorage counting))).
Proof.
  destruct (memory_saves_unique_and_lasting ["https://go.dev"; "https://go.dev/doc"]
              (Memory.NewStorage counting)
              (snd (Memory.Save_all ["https://go.dev"; "https://go.dev/doc"]
                      (Memory.NewStorage counting)))
              (fst (Memory.Save_all ["https://go.dev"; "https://go.dev/doc"]
                      (Memory.NewStorage counting))))
    as (_ & Hkept & _).
  - vm_compute. reflexivity.
  - apply (Hkept "https://go.dev" "abcdef"). vm_compute. left. reflexivity.
Defined.

(** ** FileLog backend *)

Section FileLogMore.
Import ShortID FileLog FileLogSpec.

Lemma filelog_Save_fs (io : append_io) (T : string) (s : Storage)
    (fs : gmap string string) :
  forall p, p <> filePath s -> (Save io T s fs).1.2 !! p = fs !! p.
Proof.
  intros p Hp. pose proof (filelog_Save_cases io T s fs) as Hc.
  destruct (find_unique 5 (urls s) (r s)) as [[id|] r'].
  - destruct (aopen_err io); [|destruct (write_err io) as [[n e]|]];
      rewrite Hc; cbn [fst snd];
      rewrite ?lookup_insert_ne by congruence; reflexivity.
  - rewrite Hc. reflexivity.
Qed.

Lemma filelog_Save_all_written (reqs : list (string * append_io)) :
  forall s s' fs fs' out,
  Save_all reqs s fs = (out, s', fs') ->
  (exists suffix,
     read_file fs' (filePath s) = read_file fs (filePath s) ++ suffix) /\
  (Forall (fun q => writes_whole_or_nothing q.2) reqs ->
   read_file fs' (filePath s) = read_file fs (filePath s) ++ written out) /\
  forall p, p <> filePath s -> fs' !! p = fs !! p.
Proof.
  induction reqs as [|[T io] reqs IH]; intros s s' fs fs' out H.
  - cbn in H. inversion H; subst. cbn [written].
    split; [exists EmptyString; by rewrite string_app_nil_r|].
    split; [intros _; by rewrite string_app_nil_r|reflexivity].
  - cbn [Save_all] in H.
    pose proof (filelog_Save_fs io T s fs) as Hfs.
    destruct (Save io T s fs) as [[[res s1] fs1] log1] eqn:HS. cbn [fst snd] in Hfs.
    destruct (Save_all reqs s1 fs1) as [[rest s2] fs2] eqn:HA.
    inversion H; subst out s' fs'. clear H.
    pose proof (filelog_Save_result _ _ _ _ _ _ _ _ HS) as [Hpath Hres].
    destruct (IH _ _ _ _ _ HA) as ([suffix Hgrow] & Hread & Hother).
    rewrite Hpath in Hgrow, Hread, Hother.
    split; [|split].
    + rewrite Hgrow. destruct res as [id|e].
      * destruct Hres as (_ & _ & _ & _ & ->). eexists. by rewrite string_app_assoc.
      * destruct Hres as (_ & torn & -> & _). eexists. by rewrite string_app_assoc.
    + intros Hios. inversion Hios as [|? ? Hio Hiorest]; subst. cbn [snd] in Hio.
      rewrite (Hread Hiorest). cbn [written]. destruct res as [id|e].
      * destruct Hres as (_ & _ & _ & _ & ->). by rewrite !string_app_assoc.
      * destruct Hres as (_ & torn & -> & Htorn).
        by rewrite (Htorn Hio), string_app_nil_r.
    + intros p Hp. rewrite (Hother p Hp). by apply Hfs.
Qed.

Lemma filelog_Save_all_fresh (reqs : list (string * append_io)) :
  forall s s' fs fs' out,
  Save_all reqs s fs = (out, s', fs') ->
  forall t id, In (t, Ok id) out -> urls s !! id = None.
Proof.
  induction reqs as [|[T io] reqs IH]; intros s s' fs fs' out H t id Hin.
  - cbn in H. inversion H; subst. destruct Hin.
  - cbn [Save_all] in H.
    pose proof (filelog_Save_mono io T s fs id) as Hm.
    destruct (Save io T s fs) as [[[res s1] fs1] log1] eqn:HS. cbn [fst snd] in Hm.
    destruct (Save_all reqs s1 fs1) as [[rest s2] fs2] eqn:HA.
    inversion H; subst out s' fs'. clear H. destruct Hin as [Heq|Hin].
    + inversion Heq; subst.
      by apply filelog_Save_result in HS as [_ (Hnone & _)].
    + pose proof (IH _ _ _ _ _ HA t id Hin) as Hnone1.
      destruct (urls s !! id) as [v|] eqn:E; [|reflexivity].
      specialize (Hm v eq_refl). congruence.
Qed.

Lemma filelog_Save_all_distinct (reqs : list (string * append_io)) :
  forall s s' fs fs' out,
  Save_all reqs s fs = (out, s', fs') ->
  forall i j t1 t2 id,
    out !! i = Some (t1, Ok id) -> out !! j = Some (t2, Ok id) -> i = j.
Proof.
  induction reqs as [|[T io] reqs IH]; intros s s' fs fs' out H i j t1 t2 id Hi Hj.
  - cbn in H. inversion H; subst. by rewrite lookup_nil in Hi.
  - cbn [Save_all] in H.
    destruct (Save io T s fs) as [[[res s1] fs1] log1] eqn:HS.
    destruct (Save_all reqs s1 fs1) as [[rest s2] fs2] eqn:HA.
    inversion H; subst out s' fs'. clear H.
    assert (forall n t, rest !! n = Some (t, Ok id) -> res <> Ok id) as Hclash.
    { intros n t Hn ->.
      apply filelog_Save_result in HS as [_ (_ & _ & _ & Hurls & _)].
      apply list_elem_of_lookup_2, list_elem_of_In in Hn.
      pose proof (filelog_Save_all_fresh _ _ _ _ _ _ HA t id Hn) as Hnone.
      rewrite Hurls, lookup_insert_eq in Hnone. discriminate. }
    destruct i as [|i], j as [|j]; cbn in Hi, Hj.
    + reflexivity.
    + injection Hi as _ ->. destruct (Hclash j t2 Hj eq_refl).
    + injection Hj as _ ->. destruct (Hclash i t1 Hi eq_refl).
    + f_equal. exact (IH _ _ _ _ _ HA i j t1 t2 id Hi Hj).
Qed.

(** The scanner gives up exactly when a piece fills its buffer. *)
Lemma scan_pieces_error (ps : list string) :
  snd (scan_pieces ps) =
    if existsb (fun p => maxScanTokenSize <=? slen p) ps then Some ErrTooLong else None.
Proof.
  induction ps as [|p ps IH]; [reflexivity|].
  cbn [scan_pieces existsb].
  destruct (maxScanTokenSize <=? slen p); cbn [orb]; [reflexivity|].
  destruct ps as [|q ps']; [reflexivity|].
  rewrite <- IH. by destruct (scan_pieces (q :: ps')).
Qed.

End FileLogMore.

(** X6 (the log only grows): after any run of Saves the file of the store
    is its old content followed by more bytes, and no other file is
    touched: nothing is ever rewritten or cut.  When every write that
    failed did so before any byte was written, the bytes added are exactly
    one record, identifier tab target newline, per Save that returned an
    identifier, in the order of the calls. *)
Theorem filelog_log_append_only (reqs : list (string * FileLog.append_io))
    (s s' : FileLog.Storage) (fs fs' : gmap string string)
    (out : list (string * result FileLog.error string)) :
  FileLog.Save_all reqs s fs = (out, s', fs') ->
  (exists suffix,
     FileLog.read_file fs' (FileLog.filePath s)
       = FileLog.read_file fs (FileLog.filePath s) ++ suffix) /\
  (Forall (fun q => FileLog.writes_whole_or_nothing q.2) reqs ->
   FileLog.read_file fs' (FileLog.filePath s)
     = FileLog.read_file fs (FileLog.filePath s) ++ FileLogSpec.written out) /\
  forall p, p <> FileLog.filePath s -> fs' !! p = fs !! p.
Proof. apply filelog_Save_all_written. Qed.

Lemma filelog_log_append_only_witness :
  FileLog.read_file (FileLog.Save_all three_requests first_run first_run_fs).2 "urls.tsv"
  = FileLog.record_line "abcdef" "https://go.dev" ++ String FileLog.newline
      (FileLog.record_line "mnopqr" "https://go.dev/blog"
         ++ String FileLog.newline EmptyString).
Proof.
  destruct (filelog_log_append_only three_requests first_run
              (FileLog.Save_all three_requests first_run first_run_fs).1.2
              first_run_fs
              (FileLog.Save_all three_requests first_run first_run_fs).2
              (FileLog.Save_all three_requests first_run first_run_fs).1.1)
    as (_ & Hread & _).
  - vm_compute. reflexivity.
  - cbn [FileLog.filePath first_run] in Hread. rewrite Hread.
    + vm_compute. reflexivity.
    + repeat constructor.
Defined.

(** X7 (FileLog, one caller at a time, identifiers are unique and lasting):
    over any run of Saves, appends failing or not, no identifier is
    returned twice, every returned identifier was absent before the run and
    still loads its own target at the end, and entries present before the
    run are untouched. *)
Theorem filelog_saves_unique_and_lasting (reqs : list (string * FileLog.append_io))
    (s s' : FileLog.Storage) (fs fs' : gmap string string)
    (out : list (string * result FileLog.error string)) :
  FileLog.Save_all reqs s fs = (out, s', fs') ->
  (forall i j t1 t2 id,
     out !! i = Some (t1, Ok id) -> out !! j = Some (t2, Ok id) -> i = j) /\
  (forall t id, In (t, Ok id) out ->
     FileLog.urls s !! id = None /\ FileLog.Load id s' = (Ok t, s')) /\
  (forall k v, FileLog.urls s !! k = Some v -> FileLog.Load k s' = (Ok v, s')).
Proof.
  intros H. destruct (filelog_Save_all_inv _ _ _ _ _ _ H) as (_ & Hlook & _).
  split; [exact (filelog_Save_all_distinct _ _ _ _ _ _ H)|]. split.
  - intros t id Hin. split; [exact (filelog_Save_all_fresh _ _ _ _ _ _ H t id Hin)|].
    unfold FileLog.Load.
    assert (FileLog.urls s' !! id = Some t) as -> by (apply Hlook; by right).
    reflexivity.
  - intros k v Hk. unfold FileLog.Load.
    assert (FileLog.urls s' !! k = Some v) as -> by (apply Hlook; by left).
    reflexivity.
Qed.

Lemma filelog_saves_unique_and_lasting_witness :
  FileLog.Load "mnopqr" (FileLog.Save_all three_requests first_run first_run_fs).1.2
  = (Ok "https://go.dev/blog",
     (FileLog.Save_all three_requests first_run first_run_fs).1.2).
Proof.
  destruct (filelog_saves_unique_and_lasting three_requests first_run
              (FileLog.Save_all three_requests first_run first_run_fs).1.2
              first_run_fs
              (FileLog.Save_all three_requests first_run first_run_fs).2
              (FileLog.Save_all three_requests first_run first_run_fs).1.1)
    as (_ & Hkept & _).
  - vm_compute. reflexivity.
  - apply (Hkept "https://go.dev/blog" "mnopqr"). vm_compute. right. right. left.
    reflexivity.
Defined.

(** X8 (loading reads, and replaces the map all at once): loadFromFile
    never changes the bytes of any file (an absent storage file becomes an
    empty one), keeps the random source and the path, and when it returns
    an error the map of the store is the one it had: no line parsed before
    the error becomes visible. *)
Theorem filelog_load_reads_only (io : FileLog.load_io) (s : FileLog.Storage)
    (fs : gmap string string) :
  (forall p, FileLog.read_file (FileLog.loadFromFile io s fs).1.2 p
             = FileLog.read_file fs p) /\
  (forall p, p <> FileLog.filePath s ->
             (FileLog.loadFromFile io s fs).1.2 !! p = fs !! p) /\
  FileLog.r (FileLog.loadFromFile io s fs).1.1.2 = FileLog.r s /\
  FileLog.filePath (FileLog.loadFromFile io s fs).1.1.2 = FileLog.filePath s /\
  ((FileLog.loadFromFile io s fs).1.1.1 <> None ->
   FileLog.urls (FileLog.loadFromFile io s fs).1.1.2 = FileLog.urls s).
Proof.
  unfold FileLog.loadFromFile. destruct (FileLog.open_err io) as [e|].
  - cbn [fst snd]. repeat split; reflexivity.
  - cbv zeta. destruct (FileLog.scan _) as [lines tooLong].
    destruct (FileLog.replay (FileLog.filePath s) lines) as [[m n] log].
    assert (forall p,
              FileLog.read_file
                (<[FileLog.filePath s := FileLog.read_file fs (FileLog.filePath s)]> fs) p
              = FileLog.read_file fs p) as Hread.
    { intros p. destruct (decide (FileLog.filePath s = p)) as [<-|Hne].
      - apply read_file_insert.
      - by apply read_file_insert_ne. }
    destruct tooLong as [c|]; [|destruct (FileLog.read_err io) as [[k e]|]];
      cbn [fst snd FileLog.r FileLog.filePath FileLog.urls];
      (split; [exact Hread|]);
      (split; [intros p Hp; by rewrite lookup_insert_ne|]);
      (split; [reflexivity|]); (split; [reflexivity|]);
      first [reflexivity | intros H; by destruct H | intros _; reflexivity].
Qed.

Lemma filelog_load_reads_only_witness :
  FileLog.urls (FileLog.loadFromFile no_permission taken_filelog ∅).1.1.2
  = FileLog.urls taken_filelog.
Proof.
  destruct (filelog_load_reads_only no_permission taken_filelog ∅)
    as (_ & _ & _ & _ & Hkeep).
  apply Hkeep. vm_compute. discriminate.
Defined.

(** X9 (one long line hides the file): with no failing system call,
    loadFromFile fails exactly when some line of the file, up to its
    newline, is 65536 bytes or longer, and then with bufio's ErrTooLong;
    NewStorage then starts empty, whatever good records the file holds. *)
Theorem filelog_long_line_hides_file (draws : nat -> Z) (path : string)
    (fs : gmap string string) :
  (FileLog.loadFromFile FileLog.io_ok
     (FileLog.mkStorage ∅ (ShortID.newRand draws) path) fs).1.1.1
  = (if FileLogSpec.has_long_line (FileLog.read_file fs path)
     then Some (FileLog.ErrReadStorage FileLog.ErrTooLong) else None) /\
  (FileLogSpec.has_long_line (FileLog.read_file fs path) = true ->
   exists log,
     FileLog.NewStorage draws path FileLog.io_ok fs
       = (Ok (FileLog.mkStorage ∅ (ShortID.newRand draws) path),
          <[path := FileLog.read_file fs path]> fs, log) /\
     last log = Some (FileLog.LogLoadWarning path
                        (FileLog.ErrReadStorage FileLog.ErrTooLong))).
Proof.
  unfold FileLog.NewStorage, FileLog.loadFromFile, FileLogSpec.has_long_line.
  cbn [FileLog.open_err FileLog.read_err FileLog.io_ok FileLog.filePath].
  pose proof (scan_pieces_error (FileLog.split_newline (FileLog.read_file fs path))) as He.
  unfold FileLog.scan.
  destruct (FileLog.scan_pieces (FileLog.split_newline (FileLog.read_file fs path)))
    as [lines tooLong]. cbn [snd] in He. subst tooLong.
  destruct (FileLog.replay path lines) as [[m n] log].
  destruct (existsb _ _); cbn [fst snd].
  - split; [reflexivity|]. intros _. eexists. split; [reflexivity|]. apply last_snoc.
  - split; [reflexivity|]. discriminate.
Qed.

Lemma filelog_long_line_hides_file_witness :
  exists log,
    FileLog.NewStorage cyclic6 "urls.tsv" FileLog.io_ok {["urls.tsv" := long_line_file]}
      = (Ok empty_filelog,
         <["urls.tsv" := FileLog.read_file {["urls.tsv" := long_line_file]} "urls.tsv"]>
           {["urls.tsv" := long_line_file]}, log) /\
    last log = Some (FileLog.LogLoadWarning "urls.tsv"
                       (FileLog.ErrReadStorage FileLog.ErrTooLong)).
Proof.
  apply (filelog_long_line_hides_file cyclic6 "urls.tsv" {["urls.tsv" := long_line_file]}).
  vm_compute. reflexivity.
Defined.

(** ** Relational backend *)

Section RelationalMore.
Import ShortID Relational.

Lemma ExecInsert_None_absent (id T : string) (d : DB) :
  fst (ExecInsert id T d) = None -> rows d !! id = None.
Proof.
  unfold ExecInsert. destruct (faults d (calls d)); [discriminate|].
  destruct (rows d !! id); [discriminate|reflexivity].
Qed.

(** What a Save leaves in the database. *)
Lemma relational_Save_effect (T : string) (s : Storage) :
  faults (db (Save T s).1.2) = faults (db s) /\
  (calls (db s) < calls (db (Save T s).1.2) <= calls (db s) + 5)%nat /\
  match (Save T s).1.1 with
  | Ok id => rows (db s) !! id = None /\
             rows (db (Save T s).1.2) = <[id := T]> (rows (db s))
  | Err _ => rows (db (Save T s).1.2) = rows (db s)
  end.
Proof.
  unfold Save.
  destruct (first_non_collision 5 T s) as [Hall|(k & Hk & Hcol & Hat)].
  - pose proof (relational_Save_loop_collisions 5 0 T s Hall) as H.
    change (5 + 0)%nat with 5%nat in H. rewrite H. cbn [Save_loop fst snd].
    unfold after. cbn [db rows faults calls]. split; [reflexivity|]. split; [lia|reflexivity].
  - assert (Save_loop 5 T s = Save_loop (k + S (4 - k)) T s) as ->
      by (f_equal; lia).
    rewrite (relational_Save_at k (4 - k) T s Hcol).
    destruct (attempt k T s).2 as [e|] eqn:He.
    + rewrite Hat. cbn [fst snd]. unfold after. cbn [db rows faults calls].
      split; [reflexivity|]. split; [lia|reflexivity].
    + cbn [fst snd db rows faults calls]. split; [reflexivity|]. split; [lia|].
      split; [|reflexivity].
      unfold attempt in *. cbn [fst snd] in *.
      apply ExecInsert_None_absent in He. exact He.
Qed.

End RelationalMore.

(** X10 (Relational Save and the table): a Save executes between one and
    five statements and leaves the injected faults as they are; when it
    returns an identifier, that identifier had no row and the table gains
    exactly the row (identifier, target); when it returns an error the rows
    are unchanged. *)
Theorem relational_Save_table_effect (T : string) (s : Relational.Storage) :
  Relational.faults (Relational.db (Relational.Save T s).1.2)
    = Relational.faults (Relational.db s) /\
  (Relational.calls (Relational.db s)
     < Relational.calls (Relational.db (Relational.Save T s).1.2)
     <= Relational.calls (Relational.db s) + 5)%nat /\
  match (Relational.Save T s).1.1 with
  | Ok id =>
      Relational.rows (Relational.db s) !! id = None /\
      Relational.rows (Relational.db (Relational.Save T s).1.2)
        = <[id := T]> (Relational.rows (Relational.db s))
  | Err _ =>
      Relational.rows (Relational.db (Relational.Save T s).1.2)
        = Relational.rows (Relational.db s)
  end.
Proof. apply relational_Save_effect. Qed.

(** X11 (Relational round trip): after a Save that returned an identifier,
    a Load of that identifier that meets no database failure returns the
    target, and a Load of a row that was there before the Save still
    returns its value; Load changes no row. *)
Theorem relational_save_load_roundtrip (T : string) (s s' : Relational.Storage)
    (id : string) (log : list Relational.LogEntry) :
  Relational.Save T s = (Ok id, s', log) ->
  Relational.faults (Relational.db s') (Relational.calls (Relational.db s')) = None ->
  (Relational.Load id s').1.1 = Ok T /\
  (forall k v, Relational.rows (Relational.db s) !! k = Some v ->
               (Relational.Load k s').1.1 = Ok v) /\
  (forall k, Relational.rows (Relational.db (Relational.Load k s').1.2)
             = Relational.rows (Relational.db s')).
Proof.
  intros HS Hok. pose proof (relational_Save_effect T s) as (_ & _ & Hrows).
  rewrite HS in Hrows. cbn [fst snd] in Hrows. destruct Hrows as [Hnone Hrows].
  assert (forall k v, Relational.rows (Relational.db s') !! k = Some v ->
            (Relational.Load k s').1.1 = Ok v) as Hload.
  { intros k v Hk. unfold Relational.Load, Relational.QueryRow. by rewrite Hok, Hk. }
  split; [|split].
  - apply Hload. by rewrite Hrows, lookup_insert_eq.
  - intros k v Hk. apply Hload. rewrite Hrows, lookup_insert_ne; [exact Hk|congruence].
  - intros k. unfold Relational.Load, Relational.QueryRow.
    destruct (Relational.faults _ _) as [e|].
    + by destruct e.
    + by destruct (Relational.rows (Relational.db s') !! k).
Qed.

Lemma relational_save_load_roundtrip_witness :
  (Relational.Load "mnopqr"
     (Relational.Save "https://go.dev" (relational_store two_collisions)).1.2).1.1
  = Ok "https://go.dev".
Proof.
  destruct (relational_save_load_roundtrip "https://go.dev"
              (relational_store two_collisions)
              (Relational.Save "https://go.dev" (relational_store two_collisions)).1.2
              "mnopqr"
              (Relational.Save "https://go.dev" (relational_store two_collisions)).2)
    as (Hget & _).
  - vm_compute. reflexivity.
  - reflexivity.
  - exact Hget.
Defined.

(** ** Memory backend, concurrent callers: the lock *)

Section LockMore.
Import ShortID MemoryConc MemoryConcSpec.

Lemma count_insert (f : pc -> bool) (ts : list pc) (i : nat) (t t' : pc) :
  ts !! i = Some t ->
  (count f (<[i := t']> ts) + Nat.b2n (f t) = count f ts + Nat.b2n (f t'))%nat.
Proof.
  unfold count. revert i. induction ts as [|x ts IH]; intros i Hi.
  - by rewrite lookup_nil in Hi.
  - destruct i as [|i]; cbn in Hi.
    + injection Hi as Hx. subst x. cbn [insert list_insert List.filter].
      destruct (f t) eqn:E1, (f t') eqn:E2; cbn [length Nat.b2n]; lia.
    + specialize (IH i Hi). cbn [insert list_insert List.filter].
      change (list_insert i t' ts) with (<[i := t']> ts).
      destruct (f x); cbn [length Nat.add]; [f_equal|]; exact IH.
Qed.

Ltac lock_finish Hex :=
  repeat split;
  first [ lia | exact Hex | discriminate
        | let H := fresh in intros H; specialize (Hex H); lia ].

Lemma step_lock_ok (sh sh' : Shared) (ts : list pc) (i : nat) (t t' : pc) :
  ts !! i = Some t -> step sh t = Some (sh', t') ->
  lock_ok sh ts -> lock_ok sh' (<[i := t']> ts).
Proof.
  intros Hi Hstep (Hr & Hw & Hwt & Hex).
  pose proof (count_insert in_save ts i t t' Hi) as Cs.
  pose proof (count_insert in_load ts i t t' Hi) as Cl.
  pose proof (count_insert at_wait ts i t t' Hi) as Cw.
  unfold lock_ok.
  destruct t; cbn [step] in Hstep.
  - destruct (negb (writer sh) && Nat.eqb (waiting sh) 0) eqn:G; [|discriminate].
    injection Hstep as <- <-. apply andb_true_iff in G as [Gw _].
    apply negb_true_iff in Gw.
    cbn [readers writer waiting in_save in_load at_wait Nat.b2n] in *.
    rewrite Gw in *. lock_finish Hex.
  - destruct (Nat.ltb i0 5).
    + destruct (generateShortID (r sh)) as [id r']. injection Hstep as <- <-.
      cbn [readers writer waiting in_save in_load at_wait Nat.b2n] in *.
      lock_finish Hex.
    + injection Hstep as <- <-.
      cbn [readers writer waiting in_save in_load at_wait Nat.b2n] in *.
      lock_finish Hex.
  - destruct (urls sh !! shortID); injection Hstep as <- <-;
      cbn [readers writer waiting in_save in_load at_wait Nat.b2n] in *;
      lock_finish Hex.
  - injection Hstep as <- <-.
    cbn [readers writer waiting in_save in_load at_wait Nat.b2n] in *.
    lock_finish Hex.
  - injection Hstep as <- <-.
    cbn [readers writer waiting in_save in_load at_wait Nat.b2n] in *.
    lock_finish Hex.
  - injection Hstep as <- <-.
    cbn [readers writer waiting in_save in_load at_wait Nat.b2n] in *.
    lock_finish Hex.
  - destruct (negb (writer sh) && Nat.eqb (readers sh) 0) eqn:G; [|discriminate].
    injection Hstep as <- <-. apply andb_true_iff in G as [Gw Gr].
    apply negb_true_iff in Gw. apply Nat.eqb_eq in Gr.
    cbn [readers writer waiting in_save in_load at_wait Nat.b2n] in *.
    rewrite Gw in *. cbn [Nat.b2n] in *. lock_finish Hex.
  - destruct (urls sh !! shortID); injection Hstep as <- <-;
      cbn [readers writer waiting in_save in_load at_wait Nat.b2n] in *;
      lock_finish Hex.
  - injection Hstep as <- <-.
    cbn [readers writer waiting in_save in_load at_wait Nat.b2n] in *.
    assert (writer sh = true) as Hwr.
    { destruct (writer sh); [reflexivity|]. cbn [Nat.b2n] in *. lia. }
    rewrite Hwr in *. cbn [Nat.b2n] in *. lock_finish Hex.
  - discriminate.
Qed.

Lemma run_lock_ok (sched : list nat) :
  forall sh ts sh' ts',
  lock_ok sh ts -> run sched sh ts = Some (sh', ts') -> lock_ok sh' ts'.
Proof.
  induction sched as [|i sched IH]; intros sh ts sh' ts' Hok Hrun.
  - cbn in Hrun. by injection Hrun as <- <-.
  - cbn [run] in Hrun. destruct (ts !! i) as [t|] eqn:Hi; [|discriminate].
    destruct (step sh t) as [[sh1 t1]|] eqn:Hs; [|discriminate].
    eapply IH; [|exact Hrun]. by eapply step_lock_ok.
Qed.

Lemma count_zero (f g : pc -> bool) (ts : list pc) :
  forallb g ts = true -> (forall t, g t = true -> f t = false) -> count f ts = O.
Proof.
  intros Hall Hfg. unfold count. induction ts as [|x ts IH]; [reflexivity|].
  cbn [forallb] in Hall. apply andb_true_iff in Hall as [Hx Hts].
  cbn [List.filter]. rewrite (Hfg x Hx). by apply IH.
Qed.

End LockMore.

(** X12 (lock discipline): from a fresh store and goroutines that have not
    started, under every schedule, the number of readers of the mutex is
    the number of goroutines inside Save, at most one goroutine is inside
    Load and then none is inside Save, and once every goroutine has
    returned the mutex is free: each Save and each Load releases exactly
    what it took. *)
Theorem memory_lock_discipline (draws : nat -> Z) (ts ts' : list MemoryConc.pc)
    (sched : list nat) (sh' : MemoryConc.Shared) :
  forallb MemoryConcSpec.at_call ts = true ->
  MemoryConc.run sched (MemoryConc.fresh draws) ts = Some (sh', ts') ->
  MemoryConcSpec.lock_ok sh' ts' /\
  (MemoryConcSpec.count MemoryConcSpec.in_load ts' <= 1)%nat /\
  (MemoryConcSpec.count MemoryConcSpec.in_load ts' = 1%nat ->
   MemoryConcSpec.count MemoryConcSpec.in_save ts' = 0%nat) /\
  (forallb MemoryConcSpec.is_done ts' = true ->
   MemoryConc.readers sh' = 0%nat /\ MemoryConc.writer sh' = false /\
   MemoryConc.waiting sh' = 0%nat).
Proof.
  intros Hcall Hrun.
  assert (MemoryConcSpec.lock_ok (MemoryConc.fresh draws) ts) as H0.
  { unfold MemoryConcSpec.lock_ok, MemoryConc.fresh.
    cbn [MemoryConc.readers MemoryConc.writer MemoryConc.waiting Nat.b2n].
    rewrite !(count_zero _ MemoryConcSpec.at_call ts Hcall); [auto| |  |];
      by intros [].  }
  pose proof (run_lock_ok _ _ _ _ _ H0 Hrun) as Hok.
  split; [exact Hok|]. destruct Hok as (Hr & Hw & Hwt & Hex).
  split; [|split].
  - rewrite <- Hw. destruct (MemoryConc.writer sh'); cbn; lia.
  - intros H1. rewrite <- Hr. apply Hex.
    destruct (MemoryConc.writer sh'); [reflexivity|]. cbn in Hw. lia.
  - intros Hdone.
    rewrite (count_zero _ MemoryConcSpec.is_done ts' Hdone) in Hr by (by intros []).
    rewrite (count_zero _ MemoryConcSpec.is_done ts' Hdone) in Hw by (by intros []).
    rewrite (count_zero _ MemoryConcSpec.is_done ts' Hdone) in Hwt by (by intros []).
    split; [exact Hr|]. split; [|exact Hwt].
    by destruct (MemoryConc.writer sh').
Qed.

Lemma memory_lock_discipline_witness :
  exists sh' ts',
    MemoryConc.run save_load_save_schedule (MemoryConc.fresh counting) save_load_save
      = Some (sh', ts') /\
    ts' = [MemoryConc.Done (Ok "abcdef"); MemoryConc.Done (Ok "https://go.dev/a");
           MemoryConc.Done (Ok "ghijkl")] /\
    MemoryConc.readers sh' = 0%nat /\ MemoryConc.writer sh' = false /\
    MemoryConc.waiting sh' = 0%nat.
Proof.
  destruct (MemoryConc.run save_load_save_schedule (MemoryConc.fresh counting)
              save_load_save) as [[sh' ts']|] eqn:Hrun; [|vm_compute in Hrun; discriminate].
  exists sh', ts'. split; [reflexivity|].
  assert (ts' = [MemoryConc.Done (Ok "abcdef"); MemoryConc.Done (Ok "https://go.dev/a");
                 MemoryConc.Done (Ok "ghijkl")]) as Hts.
  { vm_compute in Hrun. by injection Hrun as _ <-. }
  split; [exact Hts|].
  destruct (memory_lock_discipline counting save_load_save ts' save_load_save_schedule sh')
    as (_ & _ & _ & Hfree).
  - reflexivity.
  - exact Hrun.
  - apply Hfree. rewrite Hts. reflexivity.
Defined.

(** X13 (lost update, in general): take any two targets and any unlocked
    store whose source yields the same candidate twice in a row, that
    candidate not being a key.  Under the alternating schedule both Saves
    return that candidate, the map holds the second target only, and the
    mutex is left as it was. *)
Theorem memory_lost_update (a b : string) (sh : MemoryConc.Shared) (id : string) :
  MemoryConc.writer sh = false -> MemoryConc.waiting sh = 0%nat ->
  fst (ShortID.generateShortID (MemoryConc.r sh)) = id ->
  fst (ShortID.generateShortID (ShortID.skip 6 (MemoryConc.r sh))) = id ->
  MemoryConc.urls sh !! id = None ->
  MemoryConc.run race_schedule sh [MemoryConc.SaveCall a; MemoryConc.SaveCall b]
  = Some (MemoryConc.mkShared (<[id := b]> (MemoryConc.urls sh))
            (ShortID.skip 12 (MemoryConc.r sh)) (MemoryConc.readers sh) false 0,
          [MemoryConc.Done (Ok id); MemoryConc.Done (Ok id)]).
Proof.
  intros Hw Hwt H1 H2 Hnone. destruct sh as [m rnd rd w wt].
  cbn [MemoryConc.writer MemoryConc.waiting MemoryConc.r MemoryConc.urls
       MemoryConc.readers] in *. subst w wt.
  assert (ShortID.generateShortID rnd = (id, ShortID.skip 6 rnd)) as E1.
  { pose proof (generateShortID_skip rnd) as Hs.
    destruct (ShortID.generateShortID rnd) as [x y]. cbn [fst snd] in *. by subst. }
  assert (ShortID.generateShortID (ShortID.skip 6 rnd)
          = (id, ShortID.skip 12 rnd)) as E2.
  { pose proof (generateShortID_skip (ShortID.skip 6 rnd)) as Hs.
    rewrite skip_skip in Hs.
    destruct (ShortID.generateShortID (ShortID.skip 6 rnd)) as [x y].
    cbn [fst snd] in *. by subst. }
  unfold race_schedule.
  do 2 (cbn [MemoryConc.run lookup list_lookup MemoryConc.step MemoryConc.writer
             MemoryConc.waiting MemoryConc.readers MemoryConc.urls MemoryConc.r
             negb andb Nat.eqb insert list_insert]).
  cbn [Nat.ltb Nat.leb]. rewrite E1.
  cbn [MemoryConc.run lookup list_lookup MemoryConc.step MemoryConc.writer
       MemoryConc.waiting MemoryConc.readers MemoryConc.urls MemoryConc.r
       negb andb Nat.eqb insert list_insert Nat.ltb Nat.leb].
  rewrite E2.
  cbn [MemoryConc.run lookup list_lookup MemoryConc.step MemoryConc.writer
       MemoryConc.waiting MemoryConc.readers MemoryConc.urls MemoryConc.r
       negb andb Nat.eqb insert list_insert Nat.ltb Nat.leb].
  rewrite Hnone.
  cbn [MemoryConc.run lookup list_lookup MemoryConc.step MemoryConc.writer
       MemoryConc.waiting MemoryConc.readers MemoryConc.urls MemoryConc.r
       negb andb Nat.eqb insert list_insert Nat.ltb Nat.leb].
  rewrite Hnone.
  cbn [MemoryConc.run lookup list_lookup MemoryConc.step MemoryConc.writer
       MemoryConc.waiting MemoryConc.readers MemoryConc.urls MemoryConc.r
       negb andb Nat.eqb insert list_insert Nat.ltb Nat.leb Nat.pred].
  by rewrite insert_insert_eq.
Qed.

Lemma memory_lost_update_witness :
  MemoryConc.run race_schedule (MemoryConc.fresh cyclic6)
    [MemoryConc.SaveCall "https://go.dev/first"; MemoryConc.SaveCall "https://go.dev/second"]
  = Some (MemoryConc.mkShared
            (<["abcdef" := "https://go.dev/second"]>
               (MemoryConc.urls (MemoryConc.fresh cyclic6)))
            (ShortID.skip 12 (MemoryConc.r (MemoryConc.fresh cyclic6)))
            (MemoryConc.readers (MemoryConc.fresh cyclic6)) false 0,
          [MemoryConc.Done (Ok "abcdef"); MemoryConc.Done (Ok "abcdef")]).
Proof.
  apply (memory_lost_update "https://go.dev/first" "https://go.dev/second"
           (MemoryConc.fresh cyclic6) "abcdef"); reflexivity.
Defined.

(** ** The HTTP handlers *)

Section HandlerMore.
Import Handler.

Lemma contains_not_found (id : string) :
  Contains (error_string (Memory.ErrNotFound id)) "not found" = true.
Proof. reflexivity. Qed.

Lemma trim_slash (id : string) : TrimPrefix ("/" ++ id) "/" = id.
Proof. reflexivity. Qed.

Lemma RedirectURL_get (req : request) (s : Memory.Storage) :
  method req = "GET" ->
  RedirectURL req s =
    if String.eqb (TrimPrefix (path req) "/") EmptyString
    then (WriteError StatusBadRequest MsgMissingShortID, s, [])
    else match Memory.urls s !! TrimPrefix (path req) "/" with
         | Some u => (Redirect u StatusFound, s, [])
         | None =>
             (WriteError StatusNotFound MsgNotFound, s,
              [LogLoadError (TrimPrefix (path req) "/")
                 (Memory.ErrNotFound (TrimPrefix (path req) "/"))])
         end.
Proof.
  intros Hm. unfold RedirectURL. rewrite Hm. cbn [negb].
  change (negb ("GET" =? "GET")%string) with false. cbv iota.
  destruct (String.eqb (TrimPrefix (path req) "/") EmptyString); [reflexivity|].
  unfold Memory.Load.
  destruct (Memory.urls s !! TrimPrefix (path req) "/"); [reflexivity|].
  by rewrite contains_not_found.
Qed.

End HandlerMore.

(** X14 (shorten, then follow): when ShortenURL answers 201 Created, the
    short URL it returns is "http://", the Host of the request, a slash and
    a six-byte identifier that was not a key before; the body held a
    non-empty URL that isValidURL accepts; and a GET of "/" followed by
    that identifier on the resulting store is a 302 redirect to exactly
    that URL. *)
Theorem handler_shorten_then_redirect
    (ParseRequestURI : string -> option (string * string))
    (req : Handler.request) (s s' : Memory.Storage) (short_url : string)
    (log : list Handler.LogEntry) :
  Handler.ShortenURL ParseRequestURI req s = (Handler.Created short_url, s', log) ->
  exists u id,
    Handler.body req = Ok u /\ u <> EmptyString /\
    Handler.isValidURL ParseRequestURI u = true /\
    String.length id = 6%nat /\ Memory.urls s !! id = None /\
    short_url = "http://" ++ Handler.host req ++ "/" ++ id /\
    forall req2,
      Handler.method req2 = "GET" -> Handler.path req2 = "/" ++ id ->
      Handler.RedirectURL req2 s' = (Handler.Redirect u 302, s', []).
Proof.
  unfold Handler.ShortenURL.
  destruct (negb (String.eqb (Handler.method req) "POST")); [discriminate|].
  destruct (Handler.body req) as [u|e]; [|destruct e; discriminate].
  destruct (String.eqb u EmptyString) eqn:Hu; [discriminate|].
  destruct (Handler.isValidURL ParseRequestURI u) eqn:Hv; cbn [negb]; [|discriminate].
  destruct (Memory.Save u s) as [[id|err] s1] eqn:HS; [|discriminate].
  intros [= <- <- <-]. exists u, id.
  pose proof (memory_Save_id_shape _ _ _ _ HS) as [_ Hlen].
  apply memory_Save_Ok in HS as [Hnone Hurls].
  split; [reflexivity|]. split; [by apply String.eqb_neq|]. split; [exact Hv|].
  split; [exact Hlen|]. split; [exact Hnone|]. split; [reflexivity|].
  intros req2 Hm Hp. rewrite (RedirectURL_get req2 s1 Hm), Hp, trim_slash.
  destruct (String.eqb id EmptyString) eqn:Hid.
  - apply String.eqb_eq in Hid. subst id. discriminate Hlen.
  - by rewrite Hurls, lookup_insert_eq.
Qed.

Lemma handler_shorten_then_redirect_witness :
  Handler.RedirectURL get_abcdef
    (Handler.ShortenURL sample_parser post_go_dev (Memory.NewStorage cyclic6)).1.2
  = (Handler.Redirect "https://go.dev/doc" 302,
     (Handler.ShortenURL sample_parser post_go_dev (Memory.NewStorage cyclic6)).1.2, []).
Proof.
  destruct (handler_shorten_then_redirect sample_parser post_go_dev
              (Memory.NewStorage cyclic6)
              (Handler.ShortenURL sample_parser post_go_dev (Memory.NewStorage cyclic6)).1.2
              "http://sho.rt/abcdef" [])
    as (u & id & Hbody & _ & _ & _ & _ & Hurl & Hget).
  - vm_compute. reflexivity.
  - injection Hbody as <-.
    assert (id = "abcdef") as -> by (vm_compute in Hurl; by injection Hurl).
    apply Hget; reflexivity.
Defined.

(** X15 (what a GET can get): RedirectURL never changes the store and never
    answers 500, for the only error Load returns has "not found" in its
    text; a GET answers 400 when the path is empty or a lone slash, 302 to
    the stored target when the path less its leading slash is a key, and
    404 otherwise. *)
Theorem handler_redirect_outcomes (req : Handler.request) (s : Memory.Storage) :
  (Handler.RedirectURL req s).1.2 = s /\
  (forall m, (Handler.RedirectURL req s).1.1 <> Handler.WriteError 500 m) /\
  (Handler.method req = "GET" ->
   Handler.RedirectURL req s =
     if String.eqb (Handler.TrimPrefix (Handler.path req) "/") EmptyString
     then (Handler.WriteError 400 Handler.MsgMissingShortID, s, [])
     else match Memory.urls s !! Handler.TrimPrefix (Handler.path req) "/" with
          | Some u => (Handler.Redirect u 302, s, [])
          | None =>
              (Handler.WriteError 404 Handler.MsgNotFound, s,
               [Handler.LogLoadError (Handler.TrimPrefix (Handler.path req) "/")
                  (Memory.ErrNotFound (Handler.TrimPrefix (Handler.path req) "/"))])
          end).
Proof.
  split; [|split; [|apply RedirectURL_get]].
  - unfold Handler.RedirectURL.
    destruct (negb (String.eqb (Handler.method req) "GET")); [reflexivity|].
    destruct (String.eqb _ EmptyString); [reflexivity|]. unfold Memory.Load.
    destruct (Memory.urls s !! _); [reflexivity|].
    by rewrite contains_not_found.
  - intros m. unfold Handler.RedirectURL.
    destruct (negb (String.eqb (Handler.method req) "GET")); [discriminate|].
    destruct (String.eqb _ EmptyString); [discriminate|]. unfold Memory.Load.
    destruct (Memory.urls s !! _); [discriminate|].
    rewrite contains_not_found. discriminate.
Qed.

Lemma handler_redirect_outcomes_witness :
  Handler.RedirectURL get_missing taken_memory
  = (Handler.WriteError 404 Handler.MsgNotFound, taken_memory,
     [Handler.LogLoadError "zzzzzz" (Memory.ErrNotFound "zzzzzz")]).
Proof.
  destruct (handler_redirect_outcomes get_missing taken_memory) as (_ & _ & Hget).
  rewrite Hget; reflexivity.
Defined.

(** X16 (what ShortenURL stores): an answer other than 201 leaves the map
    as it is (a 405, any decoding error, an empty or invalid URL, an
    exhausted Save); a 201 adds exactly one entry, under a fresh key, whose
    target is the URL of the body; so a map that holds only non-empty URLs
    accepted by isValidURL still does after any request. *)
Theorem handler_shorten_store_effect
    (ParseRequestURI : string -> option (string * string))
    (req : Handler.request) (s : Memory.Storage) :
  match (Handler.ShortenURL ParseRequestURI req s).1.1 with
  | Handler.Created _ =>
      exists u id,
        Handler.body req = Ok u /\ Memory.urls s !! id = None /\
        Memory.urls (Handler.ShortenURL ParseRequestURI req s).1.2
          = <[id := u]> (Memory.urls s)
  | _ => Memory.urls (Handler.ShortenURL ParseRequestURI req s).1.2 = Memory.urls s
  end /\
  (map_Forall (fun _ v => v <> EmptyString /\ Handler.isValidURL ParseRequestURI v = true)
     (Memory.urls s) ->
   map_Forall (fun _ v => v <> EmptyString /\ Handler.isValidURL ParseRequestURI v = true)
     (Memory.urls (Handler.ShortenURL ParseRequestURI req s).1.2)).
Proof.
  unfold Handler.ShortenURL.
  destruct (negb (String.eqb (Handler.method req) "POST")); [by split|].
  destruct (Handler.body req) as [u|e]; [|destruct e; by split].
  destruct (String.eqb u EmptyString) eqn:Hu; [by split|].
  destruct (Handler.isValidURL ParseRequestURI u) eqn:Hv; cbn [negb]; [|by split].
  destruct (Memory.Save u s) as [[id|err] s1] eqn:HS; cbn [fst snd].
  - apply memory_Save_Ok in HS as [Hnone Hurls]. split.
    + exists u, id. auto.
    + intros Hall. rewrite Hurls. apply map_Forall_insert_2; [|exact Hall].
      split; [by apply String.eqb_neq|exact Hv].
  - apply memory_Save_Err in HS as [_ Hurls]. rewrite Hurls. by split.
Qed.

Lemma handler_shorten_store_effect_witness :
  map_Forall (fun _ v => v <> EmptyString /\ Handler.isValidURL sample_parser v = true)
    (Memory.urls (Handler.ShortenURL sample_parser post_go_dev taken_memory).1.2).
Proof.
  apply (handler_shorten_store_effect sample_parser post_go_dev taken_memory).
  unfold taken_memory. cbn [Memory.urls]. apply map_Forall_singleton.
  split; [discriminate|reflexivity].
Defined.

(** X17 (no reuse across a restart): build the store with NewStorage over a
    file that the scanner reads to its end.  Whatever the file holds, an
    identifier that a Save on that store returns is not the key of any
    record of the file, and the map after the Save is the index of the file
    with that one entry added. *)
Theorem filelog_restart_no_reuse (draws : nat -> Z) (path : string)
    (fs0 fs fs' : gmap string string) (s s' : FileLog.Storage)
    (log0 log : list FileLog.LogEntry) (io : FileLog.append_io) (T id : string) :
  snd (FileLog.scan (FileLog.read_file fs0 path)) = None ->
  FileLog.NewStorage draws path FileLog.io_ok fs0 = (Ok s, fs, log0) ->
  FileLog.Save io T s fs = (Ok id, s', fs', log) ->
  exists m, FileLog.log_index path fs0 = Some m /\ m !! id = None /\
            FileLog.urls s' = <[id := T]> m.
Proof.
  intros Hscan HN HS.
  destruct (NewStorage_agrees _ _ _ _ _ _ Hscan HN) as (Hpath & Hread & Hagree).
  apply filelog_Save_result in HS as [_ (Hnone & _ & _ & Hurls & _)].
  exists (FileLog.urls s). split; [|split; [exact Hnone|exact Hurls]].
  unfold FileLog.agrees in Hagree. rewrite Hpath in Hagree. rewrite <- Hagree.
  symmetry. by apply log_index_read.
Qed.

Lemma filelog_restart_no_reuse_witness :
  exists m,
    FileLog.log_index "urls.tsv" one_record_fs = Some m /\ m !! "ghijkl" = None /\
    FileLog.urls
      (FileLog.Save FileLog.append_ok "https://go.dev/doc"
         (FileLog.mkStorage {["abcdef" := "https://go.dev"]} (ShortID.newRand counting)
            "urls.tsv") one_record_fs).1.1.2
    = <["ghijkl" := "https://go.dev/doc"]> m.
Proof.
  apply (filelog_restart_no_reuse counting "urls.tsv" one_record_fs one_record_fs
           (FileLog.Save FileLog.append_ok "https://go.dev/doc"
              (FileLog.mkStorage {["abcdef" := "https://go.dev"]}
                 (ShortID.newRand counting) "urls.tsv") one_record_fs).1.2
           (FileLog.mkStorage {["abcdef" := "https://go.dev"]} (ShortID.newRand counting)
              "urls.tsv")
           (FileLog.Save FileLog.append_ok "https://go.dev/doc"
              (FileLog.mkStorage {["abcdef" := "https://go.dev"]}
                 (ShortID.newRand counting) "urls.tsv") one_record_fs).1.1.2
           [FileLog.LogLoaded 1 "urls.tsv"]
           (FileLog.Save FileLog.append_ok "https://go.dev/doc"
              (FileLog.mkStorage {["abcdef" := "https://go.dev"]}
                 (ShortID.newRand counting) "urls.tsv") one_record_fs).2
           FileLog.append_ok "https://go.dev/doc" "ghijkl").
  - vm_compute. reflexivity.
  - vm_compute. reflexivity.
  - vm_compute. reflexivity.
Defined.

(** X18 (alone, a goroutine is sequential): on an unlocked store with no
    writer waiting, some schedule runs a single goroutine calling Save to
    its end, and then it has returned what the sequential Save returns,
    the map and the source are those the sequential Save leaves, and the
    mutex is as it was. *)
Theorem memory_alone_is_sequential (u : string) (sh : MemoryConc.Shared) :
  MemoryConc.writer sh = false -> MemoryConc.waiting sh = 0%nat ->
  exists sched sh',
    MemoryConc.run sched sh [MemoryConc.SaveCall u]
      = Some (sh',
              [MemoryConc.Done
                 (Memory.Save u
                    (Memory.mkStorage (MemoryConc.urls sh) (MemoryConc.r sh))).1]) /\
    Memory.mkStorage (MemoryConc.urls sh') (MemoryConc.r sh')
      = (Memory.Save u (Memory.mkStorage (MemoryConc.urls sh) (MemoryConc.r sh))).2 /\
    MemoryConc.readers sh' = MemoryConc.readers sh /\
    MemoryConc.writer sh' = false /\ MemoryConc.waiting sh' = 0%nat.
Proof. apply memory_solo_Save. Qed.

Lemma memory_alone_is_sequential_witness :
  exists sched sh',
    MemoryConc.run sched (MemoryConc.fresh cyclic6) [MemoryConc.SaveCall "https://go.dev"]
      = Some (sh',
              [MemoryConc.Done
                 (Memory.Save "https://go.dev"
                    (Memory.mkStorage (MemoryConc.urls (MemoryConc.fresh cyclic6))
                       (MemoryConc.r (MemoryConc.fresh cyclic6)))).1]) /\
    Memory.mkStorage (MemoryConc.urls sh') (MemoryConc.r sh')
      = (Memory.Save "https://go.dev"
           (Memory.mkStorage (MemoryConc.urls (MemoryConc.fresh cyclic6))
              (MemoryConc.r (MemoryConc.fresh cyclic6)))).2 /\
    MemoryConc.readers sh' = MemoryConc.readers (MemoryConc.fresh cyclic6) /\
    MemoryConc.writer sh' = false /\ MemoryConc.waiting sh' = 0%nat.
Proof.
  apply (memory_alone_is_sequential "https://go.dev" (MemoryConc.fresh cyclic6));
    reflexivity.
Defined.
